(** * StereoFrame: depth from rectified matches, frame consistency check and
      stereo measurements

    Shallow embedding of [src/frontend/StereoFrame.cpp] (namespace [VIO]).

    - C++ [double] and [float] values are IEEE 754 binary64 and binary32
      numbers, modelled with the executable specification [spec_float] of the
      standard library ([prec = 53, emax = 1024] and [prec = 24, emax = 128]).
    - [std::vector] is a [list]; [v[i]] and [v.at(i)] are list lookups, the
      latter raising [std::out_of_range] outside the vector.
    - A failed glog [CHECK] aborts the process: it is the [Fatal] outcome of
      the [result] monad that every fallible member function returns. *)

From Stdlib Require Import ZArith Bool.
From Stdlib Require Import Floats.SpecFloat.
From stdpp Require Import base option list strings pretty.

(** ** IEEE 754 arithmetic used by the translation unit *)

Module IEEE.

(** [float] (the coordinates of [cv::Point2f]) and [double]. Both are
    carried by [spec_float]; the format only shows in the operations. *)
Definition float := spec_float.
Definition double := spec_float.

Definition prec32 : Z := 24.
Definition emax32 : Z := 128.
Definition prec64 : Z := 53.
Definition emax64 : Z := 1024.

Definition fsub (a b : float) : float := SFsub prec32 emax32 a b.
Definition fadd (a b : float) : float := SFadd prec32 emax32 a b.
Definition fabs (a : spec_float) : spec_float := SFabs a.

Definition dmul (a b : double) : double := SFmul prec64 emax64 a b.
Definition ddiv (a b : double) : double := SFdiv prec64 emax64 a b.

(** Implicit conversion [float] to [double]: exact, only the mantissa is
    brought to the canonical binary64 width. *)
Definition widen (a : float) : double :=
  match a with
  | S754_finite s m e => binary_round prec64 emax64 s m e
  | _ => a
  end.

(** Conversion of an integer literal to either format. *)
Definition float_of_Z (n : Z) : float := binary_normalize prec32 emax32 n 0 false.
Definition double_of_Z (n : Z) : double := binary_normalize prec64 emax64 n 0 false.

(** The literal [0.0] and [std::numeric_limits<double>::quiet_NaN()]. *)
Definition zero : spec_float := S754_zero false.
Definition quiet_NaN : double := S754_nan.
Definition infinity : double := S754_infinity false.

(** The comparison operators; every one is false on a NaN operand, and
    [ne] is its negation of [==], true on a NaN operand. *)
Definition lt (a b : spec_float) : bool := SFltb a b.
Definition le (a b : spec_float) : bool := SFleb a b.
Definition gt (a b : spec_float) : bool :=
  match SFcompare a b with Some Gt => true | _ => false end.
Definition ge (a b : spec_float) : bool :=
  match SFcompare a b with Some (Gt | Eq) => true | _ => false end.
Definition ne (a b : spec_float) : bool := negb (SFeqb a b).

Definition is_zero (a : spec_float) : bool :=
  match a with S754_zero _ => true | _ => false end.

End IEEE.

Import IEEE.

(** ** Outcomes of a member function *)

(** The glog checks of the translation unit, one tag per [CHECK]. *)
Inductive check_failure :=
  | IdMismatchLeft | IdMismatchRight
  | TimestampMismatchLeft | TimestampMismatchRight
  | ScoresSize | RightKeypointsSize | Keypoints3dSize
  | LeftRectifiedSize | RightRectifiedSize
  | RectifiedYDiffer | RightKeypointIsZero
  | NonpositiveDepthForValid | PositiveDepthForNonvalid
  | DepthInputSizeMismatch | DepthOutputSizeMismatch
  | NullMeasurements | NotRectified.

Inductive result (A : Type) :=
  | Ok (a : A)                 (* normal return *)
  | Fatal (e : check_failure)  (* a CHECK failed: the process aborts *)
  | OutOfRange                 (* vector::at threw std::out_of_range *)
  | Undefined.                 (* operator[] outside the vector *)
Arguments Ok {A} a.
Arguments Fatal {A} e.
Arguments OutOfRange {A}.
Arguments Undefined {A}.

Global Instance result_ret : MRet result := λ A a, Ok a.
Global Instance result_bind : MBind result := λ A B k m,
  match m with
  | Ok a => k a
  | Fatal e => Fatal e
  | OutOfRange => OutOfRange
  | Undefined => Undefined
  end.

(** [CHECK(b)], [v[i]] and [v.at(i)]. *)
Definition CHECK (b : bool) (e : check_failure) : result unit :=
  if b then Ok () else Fatal e.

Definition index {A} (v : list A) (i : nat) : result A :=
  match v !! i with Some a => Ok a | None => Undefined end.

Definition at_ {A} (v : list A) (i : nat) : result A :=
  match v !! i with Some a => Ok a | None => OutOfRange end.

(** [v.clear()]. *)
Definition clear {A} (v : list A) : list A := [].

(** [for (size_t i = start; i < start + count; i++) body]; a failing body
    ends the loop. *)
Fixpoint for_loop {St} (body : nat → St → result St) (count start : nat)
    (st : St) : result St :=
  match count with
  | O => Ok st
  | S count' => st' ← body start st; for_loop body count' (S start) st'
  end.

(** ** Data model *)

Inductive KeypointStatus :=
  VALID | NO_LEFT_RECT | NO_RIGHT_RECT | NO_DEPTH | FAILED_ARUN.

Definition KeypointStatus_eqb (a b : KeypointStatus) : bool :=
  match a, b with
  | VALID, VALID | NO_LEFT_RECT, NO_LEFT_RECT | NO_RIGHT_RECT, NO_RIGHT_RECT
  | NO_DEPTH, NO_DEPTH | FAILED_ARUN, FAILED_ARUN => true
  | _, _ => false
  end.

(** [cv::Point2f]. *)
Record KeypointCV := mkKeypointCV { x : float; y : float }.

(** [std::pair<KeypointStatus, KeypointCV>], with [first] and [second]. *)
Abbreviation StatusKeypointCV := (KeypointStatus * KeypointCV)%type.
Abbreviation StatusKeypointsCV := (list StatusKeypointCV).

(** [gtsam::Vector3]; [p(2)] is [vz p]. *)
Record Vector3 := mkVector3 { vx : double; vy : double; vz : double }.

Abbreviation LandmarkId := Z.
Abbreviation FrameId := Z.
Abbreviation Timestamp := Z.

Module Frame.
Record t := mk {
  id_ : FrameId;
  timestamp_ : Timestamp;
  keypoints_ : list KeypointCV;
  scores_ : list double;
  landmarks_ : list LandmarkId;
  isKeyframe_ : bool
}.
End Frame.

Record StereoFrame := mkStereoFrame {
  id_ : FrameId;
  timestamp_ : Timestamp;
  left_frame_ : Frame.t;
  right_frame_ : Frame.t;
  is_keyframe_ : bool;
  is_rectified_ : bool;
  keypoints_3d_ : list Vector3;
  left_keypoints_rectified_ : StatusKeypointsCV;
  right_keypoints_rectified_ : StatusKeypointsCV
}.

(** [gtsam::StereoPoint2(uL, uR, v)] and the element of [StereoMeasurements]. *)
Record StereoPoint2 := mkStereoPoint2 { uL : double; uR : double; v : double }.
Abbreviation StereoMeasurement := (LandmarkId * StereoPoint2)%type.
Abbreviation StereoMeasurements := (list StereoMeasurement).

Record StereoMatchingParams := mkStereoMatchingParams {
  min_point_dist_ : double;
  max_point_dist_ : double
}.

(** ** The member functions *)

(** The constructor: copies both frames, starts neither keyframe nor
    rectified, with empty derived vectors, and checks identity. *)
Definition StereoFrame_new (id : FrameId) (timestamp : Timestamp)
    (left_frame right_frame : Frame.t) : result StereoFrame :=
  CHECK (id =? Frame.id_ left_frame)%Z IdMismatchLeft ;;
  CHECK (id =? Frame.id_ right_frame)%Z IdMismatchRight ;;
  CHECK (timestamp =? Frame.timestamp_ left_frame)%Z TimestampMismatchLeft ;;
  CHECK (timestamp =? Frame.timestamp_ right_frame)%Z TimestampMismatchRight ;;
  Ok {| id_ := id; timestamp_ := timestamp;
        left_frame_ := left_frame; right_frame_ := right_frame;
        is_keyframe_ := false; is_rectified_ := false;
        keypoints_3d_ := []; left_keypoints_rectified_ := [];
        right_keypoints_rectified_ := [] |}.

(** One iteration of the loop of [checkStereoFrame]. The differences and
    sums of pixel coordinates are [float] operations; [fabs] and the
    comparison with the integer literal are exact in either format. *)
Definition checkStereoFrame_body (sf : StereoFrame) (i : nat) (_ : unit)
  : result unit :=
  rk ← index (right_keypoints_rectified_ sf) i;
  (if KeypointStatus_eqb rk.1 VALID then
     lk ← index (left_keypoints_rectified_ sf) i;
     CHECK (le (fabs (fsub (y rk.2) (y lk.2))) (float_of_Z 3)) RectifiedYDiffer
   else Ok ()) ;;
  if KeypointStatus_eqb rk.1 VALID then
    kp ← index (Frame.keypoints_ (right_frame_ sf)) i;
    CHECK (ne (fadd (fabs (x kp)) (fabs (y kp))) (float_of_Z 0))
          RightKeypointIsZero ;;
    p ← index (keypoints_3d_ sf) i;
    CHECK (gt (vz p) (double_of_Z 0)) NonpositiveDepthForValid
  else
    p ← index (keypoints_3d_ sf) i;
    CHECK (le (vz p) (double_of_Z 0)) PositiveDepthForNonvalid.

Definition checkStereoFrame (sf : StereoFrame) : result unit :=
  let nrLeftKeypoints := length (Frame.keypoints_ (left_frame_ sf)) in
  CHECK (length (Frame.scores_ (left_frame_ sf)) =? nrLeftKeypoints) ScoresSize ;;
  CHECK (length (Frame.keypoints_ (right_frame_ sf)) =? nrLeftKeypoints)
        RightKeypointsSize ;;
  CHECK (length (keypoints_3d_ sf) =? nrLeftKeypoints) Keypoints3dSize ;;
  CHECK (length (left_keypoints_rectified_ sf) =? nrLeftKeypoints)
        LeftRectifiedSize ;;
  CHECK (length (right_keypoints_rectified_ sf) =? nrLeftKeypoints)
        RightRectifiedSize ;;
  for_loop (checkStereoFrame_body sf) nrLeftKeypoints 0 ().

(** [setIsKeyframe]. *)
Definition Frame_set_isKeyframe (b : bool) (f : Frame.t) : Frame.t :=
  {| Frame.id_ := Frame.id_ f; Frame.timestamp_ := Frame.timestamp_ f;
     Frame.keypoints_ := Frame.keypoints_ f; Frame.scores_ := Frame.scores_ f;
     Frame.landmarks_ := Frame.landmarks_ f; Frame.isKeyframe_ := b |}.

Definition setIsKeyframe (is_kf : bool) (sf : StereoFrame) : StereoFrame :=
  {| id_ := id_ sf; timestamp_ := timestamp_ sf;
     left_frame_ := Frame_set_isKeyframe is_kf (left_frame_ sf);
     right_frame_ := Frame_set_isKeyframe is_kf (right_frame_ sf);
     is_keyframe_ := is_kf; is_rectified_ := is_rectified_ sf;
     keypoints_3d_ := keypoints_3d_ sf;
     left_keypoints_rectified_ := left_keypoints_rectified_ sf;
     right_keypoints_rectified_ := right_keypoints_rectified_ sf |}.

(** [v[i].first = s]. *)
Definition set_first (v : StatusKeypointsCV) (i : nat) (s : KeypointStatus)
  : result StatusKeypointsCV :=
  match v !! i with
  | Some kp => Ok (<[i := (s, kp.2)]> v)
  | None => Undefined
  end.

(** The variables of [getDepthFromRectifiedMatches] that its loop reads and
    writes. The two vectors are taken by reference; they are two distinct
    objects (the members [left_keypoints_rectified_] and
    [right_keypoints_rectified_] at the call site). *)
Record depth_state := mkDepthState {
  ds_left : StatusKeypointsCV;
  ds_right : StatusKeypointsCV;
  ds_depths : list double;
  ds_nrValidDepths : Z
}.

Definition push_depth (d : double) (right : StatusKeypointsCV) (nr : Z)
    (st : depth_state) : depth_state :=
  {| ds_left := ds_left st; ds_right := right;
     ds_depths := ds_depths st ++ [d]; ds_nrValidDepths := nr |}.

(** [disparity = left_px.x - right_px.x]: a [float] subtraction, widened. *)
Definition disparity_of (left_px right_px : KeypointCV) : double :=
  widen (fsub (x left_px) (x right_px)).

Definition depth_body (fx_b : double) (params : StereoMatchingParams)
    (i : nat) (st : depth_state) : result depth_state :=
  let something_is_wrong l :=
    right ← (if negb (KeypointStatus_eqb l.1 VALID)
             then set_first (ds_right st) i l.1
             else Ok (ds_right st));
    Ok (push_depth zero right (ds_nrValidDepths st) st) in
  l ← index (ds_left st) i;
  if KeypointStatus_eqb l.1 VALID then
    r ← index (ds_right st) i;
    if KeypointStatus_eqb r.1 VALID then
      let disparity := disparity_of l.2 r.2 in
      if ge disparity zero then
        let nr := (ds_nrValidDepths st + 1)%Z in
        let depth := ddiv fx_b disparity in
        if lt depth (min_point_dist_ params) || gt depth (max_point_dist_ params)
        then
          right ← set_first (ds_right st) i NO_DEPTH;
          Ok (push_depth zero right nr st)
        else Ok (push_depth depth (ds_right st) nr st)
      else
        right ← set_first (ds_right st) i NO_DEPTH;
        Ok (push_depth zero right (ds_nrValidDepths st) st)
    else something_is_wrong l
  else something_is_wrong l.

(** Returns the two vectors as the call leaves them, and [depths]. *)
Definition getDepthFromRectifiedMatches
    (left_keypoints_rectified right_keypoints_rectified : StatusKeypointsCV)
    (fx baseline : double) (stereo_matching_params : StereoMatchingParams)
  : result (StatusKeypointsCV * StatusKeypointsCV * list double) :=
  let fx_b := dmul fx baseline in
  CHECK (length left_keypoints_rectified =? length right_keypoints_rectified)
        DepthInputSizeMismatch ;;
  st ← for_loop (depth_body fx_b stereo_matching_params)
         (length left_keypoints_rectified) 0
         {| ds_left := left_keypoints_rectified;
            ds_right := right_keypoints_rectified;
            ds_depths := []; ds_nrValidDepths := 0 |};
  CHECK (length (ds_left st) =? length (ds_depths st)) DepthOutputSizeMismatch ;;
  Ok (ds_left st, ds_right st, ds_depths st).

(** One iteration of the loop of [getSmartStereoMeasurements]; the state is
    the content of [*smart_stereo_measurements]. [at(i).x] on the right
    vector is the [x] of the keypoint stored at [i]. *)
Definition getSmartStereoMeasurements_body (sf : StereoFrame)
    (use_stereo_measurements : bool) (i : nat) (out : StereoMeasurements)
  : result StereoMeasurements :=
  lmk_id ← at_ (Frame.landmarks_ (left_frame_ sf)) i;
  if (lmk_id =? -1)%Z then Ok out
  else
    l ← at_ (left_keypoints_rectified_ sf) i;
    let left_kpt := l.2 in
    let uL := widen (x left_kpt) in
    let v := widen (y left_kpt) in
    let uR := quiet_NaN in
    uR ← (if use_stereo_measurements then
            r ← at_ (right_keypoints_rectified_ sf) i;
            if KeypointStatus_eqb r.1 VALID then
              r' ← at_ (right_keypoints_rectified_ sf) i;
              Ok (widen (x r'.2))
            else Ok uR
          else Ok uR);
    Ok (out ++ [(lmk_id, mkStereoPoint2 uL uR v)]).

(** [smart_stereo_measurements] is the pointer argument: [None] is the null
    pointer, [Some old] a container holding [old]. The result is the content
    of the container when the call returns. *)
Definition getSmartStereoMeasurements
    (smart_stereo_measurements : option StereoMeasurements)
    (use_stereo_measurements : bool) (sf : StereoFrame)
  : result StereoMeasurements :=
  match smart_stereo_measurements with
  | None => Fatal NullMeasurements
  | Some old =>
    let cleared := clear old in
    CHECK (is_rectified_ sf) NotRectified ;;
    checkStereoFrame sf ;;
    for_loop (getSmartStereoMeasurements_body sf use_stereo_measurements)
      (length (Frame.landmarks_ (left_frame_ sf))) 0 cleared
  end.

(** ** Derived descriptions used by the statements *)

(** What one iteration of the loop of [getDepthFromRectifiedMatches] leaves
    at its index: the status of the right keypoint and the depth pushed. *)
Definition depth_at (fx_b : double) (params : StereoMatchingParams)
    (l r : StatusKeypointCV) : KeypointStatus * double :=
  if KeypointStatus_eqb l.1 VALID then
    if KeypointStatus_eqb r.1 VALID then
      let disparity := disparity_of l.2 r.2 in
      if ge disparity zero then
        let depth := ddiv fx_b disparity in
        if lt depth (min_point_dist_ params) || gt depth (max_point_dist_ params)
        then (NO_DEPTH, zero) else (VALID, depth)
      else (NO_DEPTH, zero)
    else (r.1, zero)
  else (l.1, zero).

Definition right_after (fx_b : double) (params : StereoMatchingParams)
    (l r : StatusKeypointCV) : StatusKeypointCV :=
  ((depth_at fx_b params l r).1, r.2).

Definition depth_after (fx_b : double) (params : StereoMatchingParams)
    (l r : StatusKeypointCV) : double :=
  (depth_at fx_b params l r).2.

Definition is_nan (a : spec_float) : bool :=
  match a with S754_nan => true | _ => false end.

Definition is_finite (a : spec_float) : bool :=
  match a with S754_zero _ | S754_finite _ _ _ => true | _ => false end.

(** The sizes that the five [CHECK_EQ] of [checkStereoFrame] compare. *)
Definition sizes_agree (sf : StereoFrame) : Prop :=
  let n := length (Frame.keypoints_ (left_frame_ sf)) in
  length (Frame.scores_ (left_frame_ sf)) = n ∧
  length (Frame.keypoints_ (right_frame_ sf)) = n ∧
  length (keypoints_3d_ sf) = n ∧
  length (left_keypoints_rectified_ sf) = n ∧
  length (right_keypoints_rectified_ sf) = n.

(** The measurement assembled at index [i], in the words of the measurement
    assembler's contract: nothing for a landmark id of -1; otherwise left u
    and v from the left rectified pixel, and right u from the right rectified
    pixel only with stereo measurements in use and a VALID right status,
    the missing-value NaN in every other case. *)
Definition observation_at (sf : StereoFrame) (use_stereo_measurements : bool)
    (i : nat) : option (LandmarkId * StereoPoint2) :=
  lmk_id ← Frame.landmarks_ (left_frame_ sf) !! i;
  if (lmk_id =? -1)%Z then None
  else
    l ← left_keypoints_rectified_ sf !! i;
    r ← right_keypoints_rectified_ sf !! i;
    Some (lmk_id,
          {| uL := widen (x l.2);
             uR := if use_stereo_measurements && KeypointStatus_eqb r.1 VALID
                   then widen (x r.2) else quiet_NaN;
             v := widen (y l.2) |}).

Definition buildMeasurements (sf : StereoFrame) (use_stereo_measurements : bool)
  : StereoMeasurements :=
  omap (observation_at sf use_stereo_measurements)
       (seq 0 (length (Frame.landmarks_ (left_frame_ sf)))).

(** Small inputs for the examples below. *)
Module Examples.
Definition px (a b : Z) : KeypointCV :=
  mkKeypointCV (float_of_Z a) (float_of_Z b).
(** [n / d] as a [double]. *)
Definition dq (n d : Z) : double := ddiv (double_of_Z n) (double_of_Z d).
Definition params_01_50 : StereoMatchingParams :=
  mkStereoMatchingParams (dq 1 10) (double_of_Z 50).
End Examples.

Module ExampleFrame.
Import Examples.
Definition left_frame : Frame.t :=
  {| Frame.id_ := 1; Frame.timestamp_ := 100;
     Frame.keypoints_ := [px 112 5; px 4 3; px 52 7];
     Frame.scores_ := [double_of_Z 1; double_of_Z 1; double_of_Z 1];
     Frame.landmarks_ := [7; -1; 9]%Z;
     Frame.isKeyframe_ := false |}.
Definition right_frame : Frame.t :=
  {| Frame.id_ := 1; Frame.timestamp_ := 100;
     Frame.keypoints_ := [px 102 5; px 4 3; px 52 7];
     Frame.scores_ := [double_of_Z 1; double_of_Z 1; double_of_Z 1];
     Frame.landmarks_ := [7; -1; 9]%Z;
     Frame.isKeyframe_ := false |}.
(** The frame of the three-keypoint scenario after rectification, depth
    estimation and triangulation. *)
Definition frame : StereoFrame :=
  {| id_ := 1; timestamp_ := 100;
     left_frame_ := left_frame; right_frame_ := right_frame;
     is_keyframe_ := false; is_rectified_ := true;
     keypoints_3d_ :=
       [mkVector3 (double_of_Z 1) (double_of_Z 0) (double_of_Z 10);
        mkVector3 zero zero zero; mkVector3 zero zero zero];
     left_keypoints_rectified_ :=
       [(VALID, px 110 5); (NO_LEFT_RECT, px 3 3); (VALID, px 50 7)];
     right_keypoints_rectified_ :=
       [(VALID, px 100 5); (NO_LEFT_RECT, px 3 3); (NO_DEPTH, px 50 7)] |}.
(** The same frame with a positive depth under a NO_DEPTH status. *)
Definition frame_bad_sign : StereoFrame :=
  {| id_ := 1; timestamp_ := 100;
     left_frame_ := left_frame; right_frame_ := right_frame;
     is_keyframe_ := false; is_rectified_ := true;
     keypoints_3d_ :=
       [mkVector3 (double_of_Z 1) (double_of_Z 0) (double_of_Z 10);
        mkVector3 zero zero zero; mkVector3 zero zero (double_of_Z 4)];
     left_keypoints_rectified_ :=
       [(VALID, px 110 5); (NO_LEFT_RECT, px 3 3); (VALID, px 50 7)];
     right_keypoints_rectified_ :=
       [(VALID, px 100 5); (NO_LEFT_RECT, px 3 3); (NO_DEPTH, px 50 7)] |}.
(** The same frame before rectification. *)
Definition frame_not_rectified : StereoFrame :=
  {| id_ := 1; timestamp_ := 100;
     left_frame_ := left_frame; right_frame_ := right_frame;
     is_keyframe_ := false; is_rectified_ := false;
     keypoints_3d_ := keypoints_3d_ frame;
     left_keypoints_rectified_ := left_keypoints_rectified_ frame;
     right_keypoints_rectified_ := right_keypoints_rectified_ frame |}.
Definition measurements : StereoMeasurements :=
  [(7%Z, mkStereoPoint2 (double_of_Z 110) (double_of_Z 100) (double_of_Z 5));
   (9%Z, mkStereoPoint2 (double_of_Z 50) quiet_NaN (double_of_Z 7))].
Definition measurements_mono : StereoMeasurements :=
  [(7%Z, mkStereoPoint2 (double_of_Z 110) quiet_NaN (double_of_Z 5));
   (9%Z, mkStereoPoint2 (double_of_Z 50) quiet_NaN (double_of_Z 7))].
End ExampleFrame.

(** ** Statistics on the right keypoints *)

(** The five counters of [DebugTrackerInfo] that this file writes; its other
    members are not touched here. *)
Record DebugTrackerInfo := mkDebugTrackerInfo {
  nrValidRKP_ : Z;
  nrNoLeftRectRKP_ : Z;
  nrNoRightRectRKP_ : Z;
  nrNoDepthRKP_ : Z;
  nrFailedArunRKP_ : Z
}.

(** [n++] on a counter of [DebugTrackerInfo]. The counters are declared
    outside this file: [counter_max] is the largest value of their type, and
    an increment past it has no result here. *)
Definition counter_incr (counter_max n : Z) : option Z :=
  if (n <? counter_max)%Z then Some (n + 1)%Z else None.

(** The [switch] of [checkStatusRightKeypoints]; [KeypointStatus] is closed,
    so its [default] is never taken. *)
Definition checkStatusRightKeypoints_body (counter_max : Z)
    (debug_info : DebugTrackerInfo) (right_keypoint : StatusKeypointCV)
  : option DebugTrackerInfo :=
  let right_keypoint_status := right_keypoint.1 in
  match right_keypoint_status with
  | VALID =>
    n ← counter_incr counter_max (nrValidRKP_ debug_info);
    Some (mkDebugTrackerInfo n (nrNoLeftRectRKP_ debug_info)
            (nrNoRightRectRKP_ debug_info) (nrNoDepthRKP_ debug_info)
            (nrFailedArunRKP_ debug_info))
  | NO_LEFT_RECT =>
    n ← counter_incr counter_max (nrNoLeftRectRKP_ debug_info);
    Some (mkDebugTrackerInfo (nrValidRKP_ debug_info) n
            (nrNoRightRectRKP_ debug_info) (nrNoDepthRKP_ debug_info)
            (nrFailedArunRKP_ debug_info))
  | NO_RIGHT_RECT =>
    n ← counter_incr counter_max (nrNoRightRectRKP_ debug_info);
    Some (mkDebugTrackerInfo (nrValidRKP_ debug_info)
            (nrNoLeftRectRKP_ debug_info) n (nrNoDepthRKP_ debug_info)
            (nrFailedArunRKP_ debug_info))
  | NO_DEPTH =>
    n ← counter_incr counter_max (nrNoDepthRKP_ debug_info);
    Some (mkDebugTrackerInfo (nrValidRKP_ debug_info)
            (nrNoLeftRectRKP_ debug_info) (nrNoRightRectRKP_ debug_info) n
            (nrFailedArunRKP_ debug_info))
  | FAILED_ARUN =>
    n ← counter_incr counter_max (nrFailedArunRKP_ debug_info);
    Some (mkDebugTrackerInfo (nrValidRKP_ debug_info)
            (nrNoLeftRectRKP_ debug_info) (nrNoRightRectRKP_ debug_info)
            (nrNoDepthRKP_ debug_info) n)
  end.

(** The range-based [for] over the right rectified keypoints. *)
Fixpoint checkStatusRightKeypoints_loop (counter_max : Z)
    (right_keypoints : StatusKeypointsCV) (debug_info : DebugTrackerInfo)
  : option DebugTrackerInfo :=
  match right_keypoints with
  | [] => Some debug_info
  | right_keypoint :: rest =>
    debug_info' ← checkStatusRightKeypoints_body counter_max debug_info
                     right_keypoint;
    checkStatusRightKeypoints_loop counter_max rest debug_info'
  end.

Inductive tally_result :=
  | TallyOk (debug_info : DebugTrackerInfo)  (* return, with [*debug_info] *)
  | TallyNullDebugInfo                       (* CHECK_NOTNULL failed *)
  | TallyCounterOverflow.                    (* a counter left its type *)

(** [debug_info] is the pointer argument, [None] the null pointer. *)
Definition checkStatusRightKeypoints (counter_max : Z)
    (debug_info : option DebugTrackerInfo) (sf : StereoFrame) : tally_result :=
  match debug_info with
  | None => TallyNullDebugInfo
  | Some _ =>
    match checkStatusRightKeypoints_loop counter_max
            (right_keypoints_rectified_ sf) (mkDebugTrackerInfo 0 0 0 0 0) with
    | Some info => TallyOk info
    | None => TallyCounterOverflow
    end
  end.

(** [n++] on a [size_t]. *)
Definition size_t_incr (n : Z) : Z := ((n + 1) mod 2 ^ 64)%Z.

(** The numbers that [printKeypointStats] writes to the log, in the order of
    the message. *)
Record KeypointStats := mkKeypointStats {
  nr_right_keypoints : Z;
  n_valid : Z;
  n_no_left_rect : Z;
  n_no_right_rect : Z;
  n_no_depth : Z;
  n_failed_arun_rkp : Z
}.

Definition printKeypointStats_body (st : KeypointStats)
    (right_keypoint_rectified : StatusKeypointCV) : KeypointStats :=
  match right_keypoint_rectified.1 with
  | VALID =>
    mkKeypointStats (nr_right_keypoints st) (size_t_incr (n_valid st))
      (n_no_left_rect st) (n_no_right_rect st) (n_no_depth st)
      (n_failed_arun_rkp st)
  | NO_LEFT_RECT =>
    mkKeypointStats (nr_right_keypoints st) (n_valid st)
      (size_t_incr (n_no_left_rect st)) (n_no_right_rect st) (n_no_depth st)
      (n_failed_arun_rkp st)
  | NO_RIGHT_RECT =>
    mkKeypointStats (nr_right_keypoints st) (n_valid st) (n_no_left_rect st)
      (size_t_incr (n_no_right_rect st)) (n_no_depth st)
      (n_failed_arun_rkp st)
  | NO_DEPTH =>
    mkKeypointStats (nr_right_keypoints st) (n_valid st) (n_no_left_rect st)
      (n_no_right_rect st) (size_t_incr (n_no_depth st))
      (n_failed_arun_rkp st)
  | FAILED_ARUN =>
    mkKeypointStats (nr_right_keypoints st) (n_valid st) (n_no_left_rect st)
      (n_no_right_rect st) (n_no_depth st)
      (size_t_incr (n_failed_arun_rkp st))
  end.

Definition printKeypointStats (right_keypoints_rectified : StatusKeypointsCV)
  : KeypointStats :=
  foldl printKeypointStats_body
    (mkKeypointStats (Z.of_nat (length right_keypoints_rectified)) 0 0 0 0 0)
    right_keypoints_rectified.

(** Number of keypoints of a vector that carry the status [s]. *)
Fixpoint count_status (s : KeypointStatus) (v : StatusKeypointsCV) : nat :=
  match v with
  | [] => 0
  | kp :: v' =>
    (if KeypointStatus_eqb kp.1 s then 1 else 0) + count_status s v'
  end.

(** ** Epipolar lines *)

(** The OpenCV calls that the display members make, with the arguments this
    file computes: [cv::line] on the canvas (in green) and [cv::imwrite]. *)
Inductive cv_call :=
  | cv_line (pt1 pt2 : KeypointCV)
  | cv_imwrite (img_name : string).

Definition INT_MIN : Z := - 2 ^ 31.
Definition INT_MAX : Z := 2 ^ 31 - 1.

(** The value of an [int] expression; outside the type it is undefined. *)
Definition int_value (n : Z) : result Z :=
  if (INT_MIN <=? n)%Z && (n <=? INT_MAX)%Z then Ok n else Undefined.

(** [a / b] on [int]: the quotient truncates, and dividing by zero is
    undefined. *)
Definition int_div (a b : Z) : result Z :=
  if (b =? 0)%Z then Undefined else int_value (a ÷ b).

Definition drawEpipolarLines_img_name (id : FrameId) : string :=
  "./outputImages/drawEpipolarLines_" +:+ pretty id +:+ ".png".

(** One iteration of the loop of [drawEpipolarLines]: [y_pos] is the [int]
    product converted to [float], and so is [canvas.cols - 1]. *)
Definition drawEpipolarLines_body (cols line_gap : Z) (l : nat)
    (calls : list cv_call) : result (list cv_call) :=
  l1 ← int_value (Z.of_nat l + 1);
  y ← int_value (l1 * line_gap);
  let y_pos := float_of_Z y in
  x_end ← int_value (cols - 1);
  Ok (calls ++ [cv_line (mkKeypointCV zero y_pos)
                        (mkKeypointCV (float_of_Z x_end) y_pos)]).

(** [rows] and [cols] are those of the canvas that
    [UtilsOpenCV::concatenateTwoImages] returns for the two images; the
    result is the sequence of OpenCV calls made on it. *)
Definition drawEpipolarLines (rows cols num_lines : Z) (write : bool)
    (id : FrameId) : result (list cv_call) :=
  n1 ← int_value (num_lines + 1);
  line_gap ← int_div rows n1;
  calls ← for_loop (drawEpipolarLines_body cols line_gap)
            (Z.to_nat num_lines) 0 [];
  if write then Ok (calls ++ [cv_imwrite (drawEpipolarLines_img_name id)])
  else Ok calls.

(** The segment of the line number [k], counted from 0. *)
Definition epipolar_line (rows cols num_lines : Z) (k : nat) : cv_call :=
  let y_pos := float_of_Z ((Z.of_nat k + 1) * (rows ÷ (num_lines + 1))) in
  cv_line (mkKeypointCV zero y_pos) (mkKeypointCV (float_of_Z (cols - 1)) y_pos).

Module MoreExamples.
Import Examples.
(** The three-keypoint frame with a fourth landmark id. *)
Definition frame_extra_landmark : StereoFrame :=
  {| id_ := 1; timestamp_ := 100;
     left_frame_ :=
       {| Frame.id_ := 1; Frame.timestamp_ := 100;
          Frame.keypoints_ := [px 112 5; px 4 3; px 52 7];
          Frame.scores_ := [double_of_Z 1; double_of_Z 1; double_of_Z 1];
          Frame.landmarks_ := [7; -1; 9; 11]%Z;
          Frame.isKeyframe_ := false |};
     right_frame_ := ExampleFrame.right_frame;
     is_keyframe_ := false; is_rectified_ := true;
     keypoints_3d_ := keypoints_3d_ ExampleFrame.frame;
     left_keypoints_rectified_ := left_keypoints_rectified_ ExampleFrame.frame;
     right_keypoints_rectified_ :=
       right_keypoints_rectified_ ExampleFrame.frame |}.
End MoreExamples.

(** * Properties *)

(** ** Comparisons with zero *)

Section Comparisons.

Lemma double_of_Z_0 : double_of_Z 0 = zero.
Proof. reflexivity. Qed.

Lemma ge_zero_of_lt_zero d : lt zero d = true → ge d zero = true.
Proof. by destruct d as [[]|[]| |[] ? ?]. Qed.

Lemma ge_zero_of_lt d : lt d zero = true → ge d zero = false.
Proof. by destruct d as [[]|[]| |[] ? ?]. Qed.

Lemma ge_zero_of_is_zero d : is_zero d = true → ge d zero = true.
Proof. by destruct d as [[]|[]| |[] ? ?]. Qed.

Lemma le_zero_not_gt d : le d zero = true → gt d zero = false.
Proof. by destruct d as [[]|[]| |[] ? ?]. Qed.

Lemma gt_zero_lt d : gt d zero = lt zero d.
Proof. by destruct d as [[]|[]| |[] ? ?]. Qed.

Lemma KeypointStatus_eqb_eq a b : KeypointStatus_eqb a b = true ↔ a = b.
Proof. by destruct a, b. Qed.

Lemma KeypointStatus_eqb_neq a b : KeypointStatus_eqb a b = false ↔ a ≠ b.
Proof. by destruct a, b. Qed.

End Comparisons.

(** ** The loop of [getDepthFromRectifiedMatches], index by index *)

Section Depth.
Variables (fx_b : double) (params : StereoMatchingParams).

Lemma set_first_middle (r_done r_todo : StatusKeypointsCV) r s :
  set_first (r_done ++ r :: r_todo) (length r_done) s
  = Ok (r_done ++ (s, r.2) :: r_todo).
Proof.
  unfold set_first. rewrite list_lookup_middle; [|done].
  by rewrite insert_app_r_alt, Nat.sub_diag.
Qed.

Lemma depth_body_middle l_done l l_todo r_done r r_todo ds nr :
  length l_done = length r_done →
  ∃ nr',
    depth_body fx_b params (length l_done)
      (mkDepthState (l_done ++ l :: l_todo) (r_done ++ r :: r_todo) ds nr)
    = Ok (mkDepthState (l_done ++ l :: l_todo)
            (r_done ++ right_after fx_b params l r :: r_todo)
            (ds ++ [(depth_at fx_b params l r).2]) nr').
Proof.
  intros Hlen. unfold depth_body, index, right_after, depth_at, push_depth.
  cbn [ds_left ds_right ds_depths ds_nrValidDepths].
  rewrite list_lookup_middle; [|done]. cbn [mbind result_bind].
  rewrite Hlen, list_lookup_middle; [|done].
  destruct l as [[] lp], r as [[] rp]; cbn -[set_first];
    try destruct (ge _ _); try destruct (_ || _);
    rewrite ?set_first_middle; cbn; eauto.
Qed.

Lemma depth_loop l_todo : ∀ r_todo l_done r_done ds nr,
  length l_done = length r_done →
  length l_todo = length r_todo →
  ∃ nr',
    for_loop (depth_body fx_b params) (length l_todo) (length l_done)
      (mkDepthState (l_done ++ l_todo) (r_done ++ r_todo) ds nr)
    = Ok (mkDepthState (l_done ++ l_todo)
            (r_done ++ zip_with (right_after fx_b params) l_todo r_todo)
            (ds ++ zip_with (depth_after fx_b params) l_todo r_todo) nr').
Proof.
  induction l_todo as [|l l_todo IH];
    intros [|r r_todo] l_done r_done ds nr Hdone Htodo; try done.
  - cbn. rewrite !app_nil_r. eauto.
  - cbn [length for_loop].
    destruct (depth_body_middle l_done l l_todo r_done r r_todo ds nr Hdone)
      as [nr1 ->].
    cbn [mbind result_bind].
    specialize (IH r_todo (l_done ++ [l])
                  (r_done ++ [right_after fx_b params l r])
                  (ds ++ [(depth_at fx_b params l r).2]) nr1).
    rewrite !length_app, Nat.add_1_r, <- !app_assoc in IH.
    apply IH; cbn in *; lia.
Qed.
End Depth.

(** [getDepthFromRectifiedMatches] returns whenever the two vectors have the
    same size; it leaves the left vector as it was. *)
Lemma getDepthFromRectifiedMatches_returns left right fx baseline params :
  length left = length right →
  getDepthFromRectifiedMatches left right fx baseline params
  = Ok (left,
        zip_with (right_after (dmul fx baseline) params) left right,
        zip_with (depth_after (dmul fx baseline) params) left right).
Proof.
  intros Hlen. unfold getDepthFromRectifiedMatches, CHECK.
  rewrite Hlen, Nat.eqb_refl. cbn [mbind result_bind].
  destruct (depth_loop (dmul fx baseline) params left right [] [] [] 0%Z)
    as [nr Hloop]; [done..|].
  cbn [app length] in Hloop. rewrite <- Hlen, Hloop.
  cbn [mbind result_bind ds_left ds_right ds_depths].
  rewrite length_zip_with_l_eq, Nat.eqb_refl by done. done.
Qed.

Lemma getDepthFromRectifiedMatches_size_mismatch left right fx baseline params :
  length left ≠ length right →
  getDepthFromRectifiedMatches left right fx baseline params
  = Fatal DepthInputSizeMismatch.
Proof.
  intros Hlen. unfold getDepthFromRectifiedMatches, CHECK.
  apply Nat.eqb_neq in Hlen as ->. done.
Qed.

(** The entries of the two returned vectors at an index of the input. *)
Lemma getDepthFromRectifiedMatches_lookup left right fx baseline params i l r :
  length left = length right →
  left !! i = Some l →
  right !! i = Some r →
  ∃ right' depths,
    getDepthFromRectifiedMatches left right fx baseline params
    = Ok (left, right', depths) ∧
    right' !! i = Some ((depth_at (dmul fx baseline) params l r).1, r.2) ∧
    depths !! i = Some (depth_at (dmul fx baseline) params l r).2.
Proof.
  intros Hlen Hl Hr. eexists _, _. split.
  - by apply getDepthFromRectifiedMatches_returns.
  - rewrite !lookup_zip_with, Hl, Hr. done.
Qed.

(** Swapping the operands of a comparison reverses its outcome, so [a <= b]
    excludes [b < a]; it excludes [a > b] as well. *)
Lemma SFcompare_antisym a b :
  SFcompare b a = CompOpp <$> SFcompare a b.
Proof.
  destruct a as [[]|[]| |[] ma ea], b as [[]|[]| |[] mb eb]; try done; cbn;
    rewrite (Z.compare_antisym ea eb); destruct (ea ?= eb)%Z; cbn; try done;
    rewrite (Pos.compare_cont_antisym _ _ Eq); cbn;
    by rewrite ?CompOpp_involutive.
Qed.

Lemma le_not_lt a b : le a b = true → lt b a = false.
Proof.
  unfold le, lt, SFleb, SFltb. rewrite (SFcompare_antisym a b).
  by destruct (SFcompare a b) as [[]|].
Qed.

Lemma le_not_gt a b : le a b = true → gt a b = false.
Proof. unfold le, gt, SFleb. by destruct (SFcompare a b) as [[]|]. Qed.

Section DepthCases.
Variables (fx_b : double) (params : StereoMatchingParams).
Variables (l r : StatusKeypointCV).

Lemma depth_at_left_not_valid :
  l.1 ≠ VALID → depth_at fx_b params l r = (l.1, zero).
Proof.
  intros H%KeypointStatus_eqb_neq. unfold depth_at. by rewrite H.
Qed.

Lemma depth_at_right_not_valid :
  l.1 = VALID → r.1 ≠ VALID → depth_at fx_b params l r = (r.1, zero).
Proof.
  intros Hl%KeypointStatus_eqb_eq Hr%KeypointStatus_eqb_neq.
  unfold depth_at. by rewrite Hl, Hr.
Qed.

Lemma depth_at_negative_disparity :
  l.1 = VALID → r.1 = VALID → lt (disparity_of l.2 r.2) zero = true →
  depth_at fx_b params l r = (NO_DEPTH, zero).
Proof.
  intros Hl%KeypointStatus_eqb_eq Hr%KeypointStatus_eqb_eq Hd%ge_zero_of_lt.
  unfold depth_at. by rewrite Hl, Hr, Hd.
Qed.

Lemma depth_at_accepted_disparity :
  l.1 = VALID → r.1 = VALID → ge (disparity_of l.2 r.2) zero = true →
  depth_at fx_b params l r =
  let depth := ddiv fx_b (disparity_of l.2 r.2) in
  if lt depth (min_point_dist_ params) || gt depth (max_point_dist_ params)
  then (NO_DEPTH, zero) else (VALID, depth).
Proof.
  intros Hl%KeypointStatus_eqb_eq Hr%KeypointStatus_eqb_eq Hd.
  unfold depth_at. by rewrite Hl, Hr, Hd.
Qed.
End DepthCases.

(** ** Claims on [getDepthFromRectifiedMatches] *)

(** C2. For every index whose left rectified status is not VALID, depth
    estimation returns, leaves the left status on the right keypoint at that
    index (whatever the right status was) and emits the depth 0.0. *)
Theorem depth_left_status_propagates left right fx baseline params i l r :
  length left = length right →
  left !! i = Some l →
  right !! i = Some r →
  l.1 ≠ VALID →
  ∃ right' depths,
    getDepthFromRectifiedMatches left right fx baseline params
    = Ok (left, right', depths) ∧
    right' !! i = Some (l.1, r.2) ∧
    depths !! i = Some zero.
Proof.
  intros Hlen Hl Hr Hnv.
  destruct (getDepthFromRectifiedMatches_lookup left right fx baseline params
              i l r Hlen Hl Hr) as (right' & depths & Hrun & Hri & Hdi).
  rewrite depth_at_left_not_valid in Hri, Hdi by done. eauto.
Qed.

Lemma depth_left_status_propagates_witness :
  let left := [(FAILED_ARUN, Examples.px 110 5)] in
  let right := [(VALID, Examples.px 100 5)] in
  ∃ right' depths,
    getDepthFromRectifiedMatches left right (double_of_Z 500) (Examples.dq 1 5)
      Examples.params_01_50 = Ok (left, right', depths) ∧
    right' !! 0 = Some (FAILED_ARUN, Examples.px 100 5) ∧
    depths !! 0 = Some zero.
Proof.
  apply (depth_left_status_propagates
           [(FAILED_ARUN, Examples.px 110 5)] [(VALID, Examples.px 100 5)]
           (double_of_Z 500) (Examples.dq 1 5) Examples.params_01_50
           0 (FAILED_ARUN, Examples.px 110 5) (VALID, Examples.px 100 5));
    [reflexivity | reflexivity | reflexivity | discriminate].
Defined.

(** C3. For every index where both rectified statuses are VALID and the
    disparity (left x minus right x) is strictly negative, depth estimation
    returns, sets the right status at that index to NO_DEPTH and emits the
    depth 0.0. *)
Theorem depth_negative_disparity left right fx baseline params i l r :
  length left = length right →
  left !! i = Some l →
  right !! i = Some r →
  l.1 = VALID →
  r.1 = VALID →
  lt (disparity_of l.2 r.2) zero = true →
  ∃ right' depths,
    getDepthFromRectifiedMatches left right fx baseline params
    = Ok (left, right', depths) ∧
    right' !! i = Some (NO_DEPTH, r.2) ∧
    depths !! i = Some zero.
Proof.
  intros Hlen Hl Hr Hlv Hrv Hneg.
  destruct (getDepthFromRectifiedMatches_lookup left right fx baseline params
              i l r Hlen Hl Hr) as (right' & depths & Hrun & Hri & Hdi).
  rewrite depth_at_negative_disparity in Hri, Hdi by done. eauto.
Qed.

Lemma depth_negative_disparity_witness :
  let left := [(VALID, Examples.px 100 5)] in
  let right := [(VALID, Examples.px 110 5)] in
  ∃ right' depths,
    getDepthFromRectifiedMatches left right (double_of_Z 500) (Examples.dq 1 5)
      Examples.params_01_50 = Ok (left, right', depths) ∧
    right' !! 0 = Some (NO_DEPTH, Examples.px 110 5) ∧
    depths !! 0 = Some zero.
Proof.
  apply (depth_negative_disparity
           [(VALID, Examples.px 100 5)] [(VALID, Examples.px 110 5)]
           (double_of_Z 500) (Examples.dq 1 5) Examples.params_01_50
           0 (VALID, Examples.px 100 5) (VALID, Examples.px 110 5));
    reflexivity.
Defined.

(** C4. For every index where both rectified statuses are VALID and the
    disparity is strictly positive, depth estimation returns and, with
    depth = fx * baseline / disparity: when depth < minPointDistance or
    depth > maxPointDistance the right status becomes NO_DEPTH and 0.0 is
    emitted; otherwise, and in particular when
    minPointDistance <= depth <= maxPointDistance, that very depth is emitted
    and the right status stays VALID. *)
Theorem depth_positive_disparity left right fx baseline params i l r :
  length left = length right →
  left !! i = Some l →
  right !! i = Some r →
  l.1 = VALID →
  r.1 = VALID →
  lt zero (disparity_of l.2 r.2) = true →
  let depth := ddiv (dmul fx baseline) (disparity_of l.2 r.2) in
  let lo := min_point_dist_ params in
  let hi := max_point_dist_ params in
  ∃ right' depths,
    getDepthFromRectifiedMatches left right fx baseline params
    = Ok (left, right', depths) ∧
    (lt depth lo = true ∨ gt depth hi = true →
       right' !! i = Some (NO_DEPTH, r.2) ∧ depths !! i = Some zero) ∧
    (lt depth lo = false ∧ gt depth hi = false →
       right' !! i = Some (VALID, r.2) ∧ depths !! i = Some depth) ∧
    (le lo depth = true ∧ le depth hi = true →
       right' !! i = Some (VALID, r.2) ∧ depths !! i = Some depth).
Proof.
  intros Hlen Hl Hr Hlv Hrv Hpos depth lo hi.
  destruct (getDepthFromRectifiedMatches_lookup left right fx baseline params
              i l r Hlen Hl Hr) as (right' & depths & Hrun & Hri & Hdi).
  rewrite depth_at_accepted_disparity in Hri, Hdi
    by auto using ge_zero_of_lt_zero.
  cbn zeta in Hri, Hdi. fold depth lo hi in Hri, Hdi.
  exists right', depths. split; [done|].
  assert (lt depth lo = false ∧ gt depth hi = false →
          right' !! i = Some (VALID, r.2) ∧ depths !! i = Some depth) as Hin.
  { intros [Hlo Hhi]. by rewrite Hlo, Hhi in Hri, Hdi. }
  split_and!; [|done|].
  - intros Hout.
    assert (lt depth lo || gt depth hi = true) as Hor
      by (destruct Hout as [-> | ->]; by rewrite ?orb_true_r).
    by rewrite Hor in Hri, Hdi.
  - intros [Hlo Hhi]. apply Hin. auto using le_not_lt, le_not_gt.
Qed.

(** fx = 100, baseline = 1, range [1/2, 10]: the disparity 50 gives the
    depth 2, emitted as computed. *)
Lemma depth_positive_disparity_witness :
  let left := [(VALID, Examples.px 100 5)] in
  let right := [(VALID, Examples.px 50 5)] in
  let params := mkStereoMatchingParams (Examples.dq 1 2) (double_of_Z 10) in
  ∃ right' depths,
    getDepthFromRectifiedMatches left right (double_of_Z 100) (double_of_Z 1)
      params = Ok (left, right', depths) ∧
    right' !! 0 = Some (VALID, Examples.px 50 5) ∧
    depths !! 0 = Some (double_of_Z 2).
Proof.
  destruct (depth_positive_disparity
           [(VALID, Examples.px 100 5)] [(VALID, Examples.px 50 5)]
           (double_of_Z 100) (double_of_Z 1)
           (mkStereoMatchingParams (Examples.dq 1 2) (double_of_Z 10))
           0 (VALID, Examples.px 100 5) (VALID, Examples.px 50 5)
           eq_refl eq_refl eq_refl eq_refl eq_refl eq_refl)
    as (right' & depths & Hrun & _ & _ & Hin).
  exists right', depths. split; [exact Hrun|]. apply Hin. split; reflexivity.
Defined.

(** The range filter of P2: fx = 1000, baseline = 1/8 (so fx * baseline is
    125), range [1/2, 10]. The disparity 500 gives the depth 1/4, rejected. *)
Example depth_below_range_rejected :
  getDepthFromRectifiedMatches
    [(VALID, Examples.px 600 5)] [(VALID, Examples.px 100 5)]
    (double_of_Z 1000) (Examples.dq 1 8)
    (mkStereoMatchingParams (Examples.dq 1 2) (double_of_Z 10))
  = Ok ([(VALID, Examples.px 600 5)], [(NO_DEPTH, Examples.px 100 5)], [zero]).
Proof. reflexivity. Qed.

(** The scenario of three keypoints: fx = 500, baseline = 1/5, range
    [1/10, 50]; disparity 10, a left keypoint that is not rectified, and
    disparity 0. *)
Example depth_scenario :
  getDepthFromRectifiedMatches
    [(VALID, Examples.px 110 5); (NO_LEFT_RECT, Examples.px 3 3);
     (VALID, Examples.px 50 7)]
    [(VALID, Examples.px 100 5); (VALID, Examples.px 3 3);
     (VALID, Examples.px 50 7)]
    (double_of_Z 500) (Examples.dq 1 5) Examples.params_01_50
  = Ok ([(VALID, Examples.px 110 5); (NO_LEFT_RECT, Examples.px 3 3);
         (VALID, Examples.px 50 7)],
        [(VALID, Examples.px 100 5); (NO_LEFT_RECT, Examples.px 3 3);
         (NO_DEPTH, Examples.px 50 7)],
        [double_of_Z 10; zero; zero]).
Proof. reflexivity. Qed.

(** C10. Depth estimation returns the left vector unchanged (statuses and
    pixels, at every index), and for every index where the left rectified
    status is VALID and the right one is not, it leaves the right keypoint at
    that index as it was (its failure tag is kept) and emits the depth 0.0. *)
Theorem depth_right_failure_preserved left right fx baseline params :
  length left = length right →
  ∃ left' right' depths,
    getDepthFromRectifiedMatches left right fx baseline params
    = Ok (left', right', depths) ∧
    left' = left ∧
    ∀ i l r,
      left !! i = Some l →
      right !! i = Some r →
      l.1 = VALID →
      r.1 ≠ VALID →
      right' !! i = Some r ∧ depths !! i = Some zero.
Proof.
  intros Hlen. eexists left, _, _.
  split; [by apply getDepthFromRectifiedMatches_returns|].
  split; [done|]. intros i l r Hl Hr Hlv Hrv.
  rewrite !lookup_zip_with, Hl, Hr. cbn.
  unfold right_after, depth_after.
  rewrite depth_at_right_not_valid by done. by destruct r.
Qed.

Lemma depth_right_failure_preserved_witness :
  let left := [(VALID, Examples.px 110 5)] in
  let right := [(NO_RIGHT_RECT, Examples.px 100 5)] in
  ∃ left' right' depths,
    getDepthFromRectifiedMatches left right (double_of_Z 500) (Examples.dq 1 5)
      Examples.params_01_50 = Ok (left', right', depths) ∧
    left' = left ∧
    right' !! 0 = Some (NO_RIGHT_RECT, Examples.px 100 5) ∧
    depths !! 0 = Some zero.
Proof.
  destruct (depth_right_failure_preserved
           [(VALID, Examples.px 110 5)] [(NO_RIGHT_RECT, Examples.px 100 5)]
           (double_of_Z 500) (Examples.dq 1 5) Examples.params_01_50 eq_refl)
    as (left' & right' & depths & Hrun & Hleft & Hidx).
  exists left', right', depths. split; [exact Hrun|]. split; [exact Hleft|].
  apply (Hidx 0 (VALID, Examples.px 110 5) (NO_RIGHT_RECT, Examples.px 100 5));
    [reflexivity | reflexivity | reflexivity | discriminate].
Defined.

(** *** Disparity exactly zero *)

(** The loop has no test for a zero disparity: [disparity >= 0.0] holds and
    the quotient is taken. With a product fx * baseline that is a nonzero
    number and finite bounds, the quotient is an infinity, which the range
    test rejects. *)
Lemma depth_at_zero_disparity_finite_range fx_b params l r :
  l.1 = VALID → r.1 = VALID →
  is_zero (disparity_of l.2 r.2) = true →
  is_zero fx_b = false → is_nan fx_b = false →
  is_finite (min_point_dist_ params) = true →
  is_finite (max_point_dist_ params) = true →
  depth_at fx_b params l r = (NO_DEPTH, zero).
Proof.
  intros Hl Hr Hz Hfz Hfn Hlo Hhi.
  rewrite depth_at_accepted_disparity by auto using ge_zero_of_is_zero.
  cbn zeta. destruct params as [lo hi]. cbn in Hlo, Hhi |- *.
  destruct (disparity_of l.2 r.2) as [[]| | |]; try done;
    destruct fx_b as [|[]| |[] ? ?]; try done;
    destruct lo as [[]| | |[] ? ?]; try done;
    destruct hi as [[]| | |[] ? ?]; done.
Qed.

Lemma depth_zero_disparity_finite_range left right fx baseline params i l r :
  length left = length right →
  left !! i = Some l →
  right !! i = Some r →
  l.1 = VALID → r.1 = VALID →
  is_zero (disparity_of l.2 r.2) = true →
  is_zero (dmul fx baseline) = false → is_nan (dmul fx baseline) = false →
  is_finite (min_point_dist_ params) = true →
  is_finite (max_point_dist_ params) = true →
  ∃ right' depths,
    getDepthFromRectifiedMatches left right fx baseline params
    = Ok (left, right', depths) ∧
    right' !! i = Some (NO_DEPTH, r.2) ∧
    depths !! i = Some zero.
Proof.
  intros Hlen Hl Hr Hlv Hrv Hz Hfz Hfn Hlo Hhi.
  destruct (getDepthFromRectifiedMatches_lookup left right fx baseline params
              i l r Hlen Hl Hr) as (right' & depths & Hrun & Hri & Hdi).
  rewrite depth_at_zero_disparity_finite_range in Hri, Hdi by done. eauto.
Qed.

(** C5. Both statuses VALID and equal x coordinates, so the disparity is
    exactly 0. With fx = 500, baseline = 1/5 and the range [1/10, +infinity]
    the quotient +infinity passes the range test: the right status stays
    VALID and the depth +infinity is emitted. With fx = 0 and the range
    [1/10, 50] the quotient is a NaN, which passes as well. In neither run
    does the status become NO_DEPTH or the depth 0.0. *)
Theorem depth_zero_disparity_accepted :
  let left := [(VALID, Examples.px 50 7)] in
  let right := [(VALID, Examples.px 50 7)] in
  is_zero (disparity_of (Examples.px 50 7) (Examples.px 50 7)) = true ∧
  getDepthFromRectifiedMatches left right (double_of_Z 500) (Examples.dq 1 5)
    (mkStereoMatchingParams (Examples.dq 1 10) infinity)
  = Ok (left, [(VALID, Examples.px 50 7)], [infinity]) ∧
  getDepthFromRectifiedMatches left right (double_of_Z 0) (Examples.dq 1 5)
    Examples.params_01_50
  = Ok (left, [(VALID, Examples.px 50 7)], [quiet_NaN]).
Proof. by vm_compute. Qed.

(** ** [checkStereoFrame] *)

Section UnitLoops.
Variable body : nat → unit → result unit.

Lemma for_loop_unit_Ok count : ∀ start,
  for_loop body count start () = Ok () ↔
  ∀ j, start ≤ j < start + count → body j () = Ok ().
Proof.
  induction count as [|count IH]; intros start; cbn [for_loop].
  - split; [intros _ j ?; lia | done].
  - destruct (body start ()) as [[]| | |] eqn:Hb; cbn [mbind result_bind].
    + rewrite IH. split.
      * intros H j Hj. destruct (decide (j = start)) as [->|]; [done|].
        apply H. lia.
      * intros H j Hj. apply H. lia.
    + split; [done|]. intros H. rewrite H in Hb by lia. done.
    + split; [done|]. intros H. rewrite H in Hb by lia. done.
    + split; [done|]. intros H. rewrite H in Hb by lia. done.
Qed.

Lemma for_loop_unit_Ok_or_Fatal count : ∀ start,
  (∀ j, start ≤ j < start + count →
        body j () = Ok () ∨ ∃ e, body j () = Fatal e) →
  for_loop body count start () = Ok () ∨
  ∃ e, for_loop body count start () = Fatal e.
Proof.
  induction count as [|count IH]; intros start H; cbn [for_loop]; [by left|].
  destruct (H start) as [-> | [e ->]]; [lia | | by eauto].
  cbn [mbind result_bind]. apply IH. intros j Hj. apply H. lia.
Qed.
End UnitLoops.

Lemma CHECK_Ok b e : CHECK b e = Ok () ↔ b = true.
Proof. by destruct b. Qed.

Lemma CHECK_Ok_or_Fatal b e : CHECK b e = Ok () ∨ ∃ e', CHECK b e = Fatal e'.
Proof. destruct b; cbn; eauto. Qed.

Lemma CHECK_bind_Ok {A} b e (k : result A) a :
  (CHECK b e ;; k) = Ok a ↔ b = true ∧ k = Ok a.
Proof. destruct b; cbn; intuition congruence. Qed.

Lemma CHECK_bind_Ok_or_Fatal {A} b e (k : result A) :
  (b = true → (∃ a, k = Ok a) ∨ ∃ e', k = Fatal e') →
  (∃ a, (CHECK b e ;; k) = Ok a) ∨ ∃ e', (CHECK b e ;; k) = Fatal e'.
Proof. destruct b; cbn; eauto. Qed.

Section CheckStereoFrame.
Variable sf : StereoFrame.

(** The body at an index inside the five vectors. *)
Lemma checkStereoFrame_body_inside i rk lk kp p :
  right_keypoints_rectified_ sf !! i = Some rk →
  left_keypoints_rectified_ sf !! i = Some lk →
  Frame.keypoints_ (right_frame_ sf) !! i = Some kp →
  keypoints_3d_ sf !! i = Some p →
  checkStereoFrame_body sf i () =
  if KeypointStatus_eqb rk.1 VALID then
    CHECK (le (fabs (fsub (y rk.2) (y lk.2))) (float_of_Z 3))
          RectifiedYDiffer ;;
    CHECK (ne (fadd (fabs (x kp)) (fabs (y kp))) (float_of_Z 0))
          RightKeypointIsZero ;;
    CHECK (gt (vz p) zero) NonpositiveDepthForValid
  else CHECK (le (vz p) zero) PositiveDepthForNonvalid.
Proof.
  intros Hrk Hlk Hkp Hp. unfold checkStereoFrame_body, index.
  rewrite Hrk. cbn [mbind result_bind].
  destruct (KeypointStatus_eqb rk.1 VALID); rewrite ?Hlk, ?Hkp, Hp; [|done].
  cbn [mbind result_bind]. by destruct (CHECK _ RectifiedYDiffer) as [[]| | |].
Qed.

Lemma checkStereoFrame_body_Ok_or_Fatal i :
  sizes_agree sf →
  i < length (Frame.keypoints_ (left_frame_ sf)) →
  checkStereoFrame_body sf i () = Ok () ∨
  ∃ e, checkStereoFrame_body sf i () = Fatal e.
Proof.
  intros (_ & Hkp & Hp & Hlk & Hrk) Hi.
  rewrite <- Hkp in Hi at 1.
  destruct (lookup_lt_is_Some_2 _ _ Hi) as [kp Ekp]. rewrite Hkp, <- Hp in Hi.
  destruct (lookup_lt_is_Some_2 _ _ Hi) as [p Ep]. rewrite Hp, <- Hlk in Hi.
  destruct (lookup_lt_is_Some_2 _ _ Hi) as [lk Elk]. rewrite Hlk, <- Hrk in Hi.
  destruct (lookup_lt_is_Some_2 _ _ Hi) as [rk Erk].
  rewrite (checkStereoFrame_body_inside i rk lk kp p) by done.
  destruct (KeypointStatus_eqb rk.1 VALID); [|apply CHECK_Ok_or_Fatal].
  destruct (CHECK_Ok_or_Fatal
              (le (fabs (fsub (y rk.2) (y lk.2))) (float_of_Z 3))
              RectifiedYDiffer) as [-> | [e ->]]; [|by eauto].
  destruct (CHECK_Ok_or_Fatal
              (ne (fadd (fabs (x kp)) (fabs (y kp))) (float_of_Z 0))
              RightKeypointIsZero) as [-> | [e ->]]; [|by eauto].
  apply CHECK_Ok_or_Fatal.
Qed.

(** A passing body bounds the sign of the depth by the status. *)
Lemma checkStereoFrame_body_Ok_sign i rk p :
  right_keypoints_rectified_ sf !! i = Some rk →
  keypoints_3d_ sf !! i = Some p →
  checkStereoFrame_body sf i () = Ok () →
  if KeypointStatus_eqb rk.1 VALID then gt (vz p) zero = true
  else le (vz p) zero = true.
Proof.
  intros Hrk Hp. unfold checkStereoFrame_body, index, CHECK.
  rewrite Hrk, Hp. cbn [mbind result_bind].
  change (double_of_Z 0) with zero.
  destruct (KeypointStatus_eqb rk.1 VALID); cbn [mbind result_bind];
    repeat (case_match; cbn [mbind result_bind]; try done).
Qed.

Lemma checkStereoFrame_Ok :
  checkStereoFrame sf = Ok () ↔
  sizes_agree sf ∧
  ∀ i, i < length (Frame.keypoints_ (left_frame_ sf)) →
       checkStereoFrame_body sf i () = Ok ().
Proof.
  unfold checkStereoFrame, sizes_agree. cbn zeta.
  rewrite !CHECK_bind_Ok, !Nat.eqb_eq, for_loop_unit_Ok.
  split.
  - intros (? & ? & ? & ? & ? & Hbody). repeat split; try done.
    intros i Hi. apply Hbody. lia.
  - intros [(? & ? & ? & ? & ?) Hbody]. repeat split; try done.
    intros j Hj. apply Hbody. lia.
Qed.

Lemma checkStereoFrame_Ok_or_Fatal :
  checkStereoFrame sf = Ok () ∨ ∃ e, checkStereoFrame sf = Fatal e.
Proof.
  unfold checkStereoFrame. cbn zeta.
  assert (∀ r : result unit,
            (∃ a, r = Ok a) ∨ (∃ e, r = Fatal e) →
            r = Ok () ∨ ∃ e, r = Fatal e) as Hunit.
  { intros r [[[] ->] | ?]; eauto. }
  apply Hunit.
  repeat (apply CHECK_bind_Ok_or_Fatal; intros ?%Nat.eqb_eq).
  destruct (for_loop_unit_Ok_or_Fatal (checkStereoFrame_body sf)
              (length (Frame.keypoints_ (left_frame_ sf))) 0) as [-> | ?];
    eauto.
  intros j Hj. apply checkStereoFrame_body_Ok_or_Fatal; [done | lia].
Qed.
End CheckStereoFrame.

(** ** [getSmartStereoMeasurements] *)

Section Measurements.
Variables (sf : StereoFrame) (use_stereo_measurements : bool).
Hypothesis rectified_sizes :
  length (left_keypoints_rectified_ sf) = length (right_keypoints_rectified_ sf).

Lemma getSmartStereoMeasurements_body_eq i out :
  getSmartStereoMeasurements_body sf use_stereo_measurements i out =
  match Frame.landmarks_ (left_frame_ sf) !! i with
  | None => OutOfRange
  | Some lmk_id =>
    if (lmk_id =? -1)%Z then Ok out
    else match observation_at sf use_stereo_measurements i with
         | Some m => Ok (out ++ [m])
         | None => OutOfRange
         end
  end.
Proof.
  unfold getSmartStereoMeasurements_body, observation_at, at_.
  destruct (Frame.landmarks_ (left_frame_ sf) !! i) as [lmk_id|]; [|done].
  cbn [mbind result_bind option_bind]. destruct (lmk_id =? -1)%Z; [done|].
  destruct (left_keypoints_rectified_ sf !! i) as [l|] eqn:Hl; [|done].
  apply lookup_lt_Some in Hl as Hi. rewrite rectified_sizes in Hi.
  destruct (lookup_lt_is_Some_2 _ _ Hi) as [r ->].
  cbn [mbind result_bind option_bind].
  by destruct use_stereo_measurements, (KeypointStatus_eqb r.1 VALID).
Qed.

Lemma observation_at_skipped i :
  Frame.landmarks_ (left_frame_ sf) !! i = Some (-1)%Z →
  observation_at sf use_stereo_measurements i = None.
Proof. intros H. unfold observation_at. by rewrite H. Qed.

Lemma observation_at_Some i m :
  observation_at sf use_stereo_measurements i = Some m →
  Frame.landmarks_ (left_frame_ sf) !! i = Some m.1 ∧ m.1 ≠ (-1)%Z.
Proof.
  unfold observation_at.
  destruct (Frame.landmarks_ (left_frame_ sf) !! i) as [lmk_id|]; [|done].
  cbn [mbind option_bind]. destruct (Z.eqb_spec lmk_id (-1)); [done|].
  destruct (left_keypoints_rectified_ sf !! i); [|done].
  destruct (right_keypoints_rectified_ sf !! i); [|done].
  cbn [mbind option_bind]. by intros [= <-].
Qed.

Lemma measurements_loop_Ok count : ∀ start out out',
  for_loop (getSmartStereoMeasurements_body sf use_stereo_measurements)
    count start out = Ok out' →
  out' = out ++ omap (observation_at sf use_stereo_measurements)
                     (seq start count).
Proof.
  induction count as [|count IH]; intros start out out'; cbn [for_loop seq].
  - intros [= <-]. by rewrite app_nil_r.
  - rewrite getSmartStereoMeasurements_body_eq. cbn [omap list_omap].
    destruct (Frame.landmarks_ (left_frame_ sf) !! start) as [lmk_id|] eqn:Hlmk;
      [|done].
    destruct (Z.eqb_spec lmk_id (-1)) as [->|Hne]; cbn [mbind result_bind].
    + rewrite observation_at_skipped by done. apply IH.
    + destruct (observation_at sf use_stereo_measurements start) as [m|];
        [|done].
      cbn [mbind result_bind]. intros ->%IH. by rewrite <- app_assoc.
Qed.

(** The loop returns when every landmark id other than -1 stands at an index
    inside the rectified vectors. *)
Lemma measurements_loop_returns count : ∀ start out,
  start + count ≤ length (Frame.landmarks_ (left_frame_ sf)) →
  start + count ≤ length (left_keypoints_rectified_ sf) →
  for_loop (getSmartStereoMeasurements_body sf use_stereo_measurements)
    count start out
  = Ok (out ++ omap (observation_at sf use_stereo_measurements)
                    (seq start count)).
Proof.
  induction count as [|count IH]; intros start out Hlmks Hleft;
    cbn [for_loop seq].
  - by rewrite app_nil_r.
  - rewrite getSmartStereoMeasurements_body_eq. cbn [omap list_omap].
    destruct (lookup_lt_is_Some_2 (Frame.landmarks_ (left_frame_ sf)) start)
      as [lmk_id Hlmk]; [lia|].
    rewrite Hlmk.
    destruct (Z.eqb_spec lmk_id (-1)) as [->|Hne]; cbn [mbind result_bind].
    + rewrite observation_at_skipped by done. apply IH; lia.
    + destruct (lookup_lt_is_Some_2 (left_keypoints_rectified_ sf) start)
        as [l Hl]; [lia|].
      destruct (lookup_lt_is_Some_2 (right_keypoints_rectified_ sf) start)
        as [r Hr]; [lia|].
      assert (∃ m, observation_at sf use_stereo_measurements start = Some m)
        as [m ->].
      { unfold observation_at. rewrite Hlmk, Hl, Hr. cbn [mbind option_bind].
        destruct (Z.eqb_spec lmk_id (-1)); [done|]. eauto. }
      cbn [mbind result_bind]. rewrite IH by lia. by rewrite <- app_assoc.
Qed.
End Measurements.

Lemma checkStereoFrame_rectified_sizes sf :
  checkStereoFrame sf = Ok () →
  length (left_keypoints_rectified_ sf) = length (Frame.keypoints_ (left_frame_ sf))
  ∧ length (right_keypoints_rectified_ sf)
    = length (Frame.keypoints_ (left_frame_ sf)).
Proof. intros [(_ & _ & _ & ? & ?) _]%checkStereoFrame_Ok. done. Qed.

(** What a returning call went through, and what it returns. *)
Lemma getSmartStereoMeasurements_Ok ptr use sf out :
  getSmartStereoMeasurements ptr use sf = Ok out →
  is_Some ptr ∧ is_rectified_ sf = true ∧ checkStereoFrame sf = Ok () ∧
  out = buildMeasurements sf use.
Proof.
  unfold getSmartStereoMeasurements. destruct ptr as [old|]; [|done].
  rewrite CHECK_bind_Ok. intros [Hrect Hrun].
  destruct (checkStereoFrame_Ok_or_Fatal sf) as [Hchk | [e Hchk]];
    rewrite Hchk in Hrun; [|done].
  cbn [mbind result_bind] in Hrun.
  apply measurements_loop_Ok in Hrun.
  - by rewrite Hrun.
  - apply checkStereoFrame_rectified_sizes in Hchk as [-> ->]. done.
Qed.

Lemma getSmartStereoMeasurements_returns old use sf :
  is_rectified_ sf = true →
  checkStereoFrame sf = Ok () →
  length (Frame.landmarks_ (left_frame_ sf))
  ≤ length (Frame.keypoints_ (left_frame_ sf)) →
  getSmartStereoMeasurements (Some old) use sf = Ok (buildMeasurements sf use).
Proof.
  intros Hrect Hchk Hlmks. unfold getSmartStereoMeasurements.
  rewrite Hrect, Hchk. cbn [CHECK mbind result_bind].
  apply checkStereoFrame_rectified_sizes in Hchk as [Hl Hr].
  rewrite measurements_loop_returns; [done | congruence | lia | lia].
Qed.

(** ** Claims on [checkStereoFrame], [getSmartStereoMeasurements] and
       [setIsKeyframe] *)

Example checkStereoFrame_example :
  checkStereoFrame ExampleFrame.frame = Ok () ∧
  checkStereoFrame ExampleFrame.frame_bad_sign = Fatal PositiveDepthForNonvalid.
Proof. split; reflexivity. Qed.

Example getSmartStereoMeasurements_example :
  getSmartStereoMeasurements (Some []) true ExampleFrame.frame
  = Ok ExampleFrame.measurements ∧
  getSmartStereoMeasurements (Some []) false ExampleFrame.frame
  = Ok ExampleFrame.measurements_mono.
Proof. split; reflexivity. Qed.

(** C1. [checkStereoFrame] either passes or fails fatally. When it passes,
    at every index of the 3D points and right rectified keypoints a VALID
    status comes with z > 0 and any other status with z <= 0, so z > 0 if and
    only if the status is VALID; when some index breaks that equivalence, the
    check fails fatally. *)
Theorem checkStereoFrame_depth_sign sf :
  (checkStereoFrame sf = Ok () ∨ ∃ e, checkStereoFrame sf = Fatal e) ∧
  ∀ i p rk,
    keypoints_3d_ sf !! i = Some p →
    right_keypoints_rectified_ sf !! i = Some rk →
    (checkStereoFrame sf = Ok () →
       (rk.1 = VALID → gt (vz p) zero = true) ∧
       (rk.1 ≠ VALID → le (vz p) zero = true) ∧
       (gt (vz p) zero = true ↔ rk.1 = VALID)) ∧
    (¬ (gt (vz p) zero = true ↔ rk.1 = VALID) →
       ∃ e, checkStereoFrame sf = Fatal e).
Proof.
  pose proof (checkStereoFrame_Ok_or_Fatal sf) as Hcases.
  split; [done|]. intros i p rk Hp Hrk.
  assert (checkStereoFrame sf = Ok () →
          (rk.1 = VALID → gt (vz p) zero = true) ∧
          (rk.1 ≠ VALID → le (vz p) zero = true) ∧
          (gt (vz p) zero = true ↔ rk.1 = VALID)) as Hpass.
  { intros [Hsizes Hbody]%checkStereoFrame_Ok.
    destruct Hsizes as (_ & _ & Hn & _ & _).
    apply lookup_lt_Some in Hp as Hi. rewrite Hn in Hi.
    pose proof (checkStereoFrame_body_Ok_sign sf i rk p Hrk Hp (Hbody i Hi))
      as Hsign.
    destruct (KeypointStatus_eqb rk.1 VALID) eqn:Hst.
    - apply KeypointStatus_eqb_eq in Hst. repeat split; done.
    - apply KeypointStatus_eqb_neq in Hst. repeat split; try done.
      intros Hgt. by rewrite (le_zero_not_gt _ Hsign) in Hgt. }
  split; [done|]. intros Hbroken.
  destruct Hcases as [Hok | Hfatal]; [|done].
  destruct Hbroken. by apply Hpass.
Qed.

(** A positive depth under a NO_DEPTH status, at index 2: the check fails. *)
Lemma checkStereoFrame_depth_sign_witness :
  ∃ e, checkStereoFrame ExampleFrame.frame_bad_sign = Fatal e.
Proof.
  apply (proj2 (checkStereoFrame_depth_sign ExampleFrame.frame_bad_sign)
           2 (mkVector3 zero zero (double_of_Z 4))
           (NO_DEPTH, Examples.px 50 7) eq_refl eq_refl).
  intros [H _]. by specialize (H eq_refl).
Defined.

(** C6. On a rectified frame that passes [checkStereoFrame] and whose
    landmark ids do not outnumber its keypoints, the call returns the
    measurements of the indices in increasing order. An index whose landmark
    id is -1 gives nothing. Any other index gives the landmark id with left u
    and v read from the left rectified pixel, and right u read from the right
    rectified pixel when stereo measurements are in use and the right status
    is VALID, and the NaN of a missing value in every other case. *)
Theorem getSmartStereoMeasurements_emits old use sf :
  is_rectified_ sf = true →
  checkStereoFrame sf = Ok () →
  length (Frame.landmarks_ (left_frame_ sf))
  ≤ length (Frame.keypoints_ (left_frame_ sf)) →
  getSmartStereoMeasurements (Some old) use sf
  = Ok (omap (observation_at sf use)
             (seq 0 (length (Frame.landmarks_ (left_frame_ sf))))) ∧
  ∀ i lmk_id,
    Frame.landmarks_ (left_frame_ sf) !! i = Some lmk_id →
    (lmk_id = (-1)%Z → observation_at sf use i = None) ∧
    (lmk_id ≠ (-1)%Z →
     ∃ l r,
       left_keypoints_rectified_ sf !! i = Some l ∧
       right_keypoints_rectified_ sf !! i = Some r ∧
       observation_at sf use i =
       Some (lmk_id,
             {| uL := widen (x l.2);
                uR := if use && KeypointStatus_eqb r.1 VALID
                      then widen (x r.2) else quiet_NaN;
                v := widen (y l.2) |})).
Proof.
  intros Hrect Hchk Hlmks. split.
  - by apply getSmartStereoMeasurements_returns.
  - intros i lmk_id Hlmk. split.
    + intros ->. by apply observation_at_skipped.
    + intros Hne. apply lookup_lt_Some in Hlmk as Hi.
      apply checkStereoFrame_rectified_sizes in Hchk as [Hl Hr].
      destruct (lookup_lt_is_Some_2 (left_keypoints_rectified_ sf) i)
        as [l El]; [lia|].
      destruct (lookup_lt_is_Some_2 (right_keypoints_rectified_ sf) i)
        as [r Er]; [lia|].
      exists l, r. split_and!; [done..|].
      unfold observation_at. rewrite Hlmk, El, Er. cbn [mbind option_bind].
      by destruct (Z.eqb_spec lmk_id (-1)).
Qed.

Lemma getSmartStereoMeasurements_emits_witness :
  getSmartStereoMeasurements (Some []) true ExampleFrame.frame
  = Ok ExampleFrame.measurements.
Proof.
  refine (proj1 (getSmartStereoMeasurements_emits [] true ExampleFrame.frame
                   _ _ _));
    [reflexivity | reflexivity | cbn; lia].
Defined.

(** C7. Without [is_rectified_] the call fails fatally. A call that returns
    has passed both the rectification check and [checkStereoFrame], and a
    fatal failure of [checkStereoFrame] on a rectified frame is the outcome of
    the call. What the container held at the call has no part in the result:
    the call gives what it gives on an empty container. *)
Theorem getSmartStereoMeasurements_guards ptr use sf :
  (is_rectified_ sf = false →
     ∃ e, getSmartStereoMeasurements ptr use sf = Fatal e) ∧
  (∀ old, is_rectified_ sf = false →
     getSmartStereoMeasurements (Some old) use sf = Fatal NotRectified) ∧
  (∀ old e, is_rectified_ sf = true → checkStereoFrame sf = Fatal e →
     getSmartStereoMeasurements (Some old) use sf = Fatal e) ∧
  (∀ out, getSmartStereoMeasurements ptr use sf = Ok out →
     is_rectified_ sf = true ∧ checkStereoFrame sf = Ok ()) ∧
  (∀ old, getSmartStereoMeasurements (Some old) use sf
          = getSmartStereoMeasurements (Some []) use sf).
Proof.
  split_and!.
  - intros Hrect. destruct ptr as [old|]; cbn; [|by eauto].
    rewrite Hrect. cbn. eauto.
  - intros old Hrect. cbn. by rewrite Hrect.
  - intros old e Hrect Hchk. cbn. by rewrite Hrect, Hchk.
  - intros out Hrun.
    by destruct (getSmartStereoMeasurements_Ok ptr use sf out Hrun)
      as (_ & ? & ? & _).
  - done.
Qed.

Example getSmartStereoMeasurements_not_rectified :
  getSmartStereoMeasurements (Some ExampleFrame.measurements) true
    ExampleFrame.frame_not_rectified = Fatal NotRectified ∧
  getSmartStereoMeasurements (Some []) true ExampleFrame.frame_bad_sign
  = Fatal PositiveDepthForNonvalid ∧
  getSmartStereoMeasurements None true ExampleFrame.frame
  = Fatal NullMeasurements.
Proof. repeat split. Qed.

(** C8. A call that returned returns the same sequence when run again on the
    unchanged frame, whether the container still holds the first result or
    anything else, and no landmark id of the sequence is -1. *)
Theorem getSmartStereoMeasurements_idempotent old use sf out :
  getSmartStereoMeasurements (Some old) use sf = Ok out →
  getSmartStereoMeasurements (Some out) use sf = Ok out ∧
  (∀ old', getSmartStereoMeasurements (Some old') use sf = Ok out) ∧
  ∀ m, m ∈ out → m.1 ≠ (-1)%Z.
Proof.
  intros Hrun. split_and!; [done..|].
  apply getSmartStereoMeasurements_Ok in Hrun as (_ & _ & _ & ->).
  intros m (i & _ & Hm)%list_elem_of_omap.
  by apply observation_at_Some in Hm as [_ ?].
Qed.

Lemma getSmartStereoMeasurements_idempotent_witness :
  getSmartStereoMeasurements (Some ExampleFrame.measurements) true
    ExampleFrame.frame = Ok ExampleFrame.measurements ∧
  ∀ m, m ∈ ExampleFrame.measurements → m.1 ≠ (-1)%Z.
Proof.
  destruct (getSmartStereoMeasurements_idempotent
              ExampleFrame.measurements_mono true ExampleFrame.frame
              ExampleFrame.measurements eq_refl) as (Hagain & _ & Hids).
  split; [exact Hagain | exact Hids].
Defined.

(** C9. [setIsKeyframe] leaves the one boolean it is given in the stereo
    frame and in both of its frames, and changes nothing else. *)
Theorem setIsKeyframe_propagates is_kf sf :
  let sf' := setIsKeyframe is_kf sf in
  is_keyframe_ sf' = is_kf ∧
  Frame.isKeyframe_ (left_frame_ sf') = is_kf ∧
  Frame.isKeyframe_ (right_frame_ sf') = is_kf ∧
  Frame.isKeyframe_ (left_frame_ sf') = is_keyframe_ sf' ∧
  Frame.isKeyframe_ (right_frame_ sf') = is_keyframe_ sf' ∧
  left_frame_ sf' = Frame_set_isKeyframe is_kf (left_frame_ sf) ∧
  right_frame_ sf' = Frame_set_isKeyframe is_kf (right_frame_ sf) ∧
  (id_ sf', timestamp_ sf', is_rectified_ sf', keypoints_3d_ sf',
   left_keypoints_rectified_ sf', right_keypoints_rectified_ sf')
  = (id_ sf, timestamp_ sf, is_rectified_ sf, keypoints_3d_ sf,
     left_keypoints_rectified_ sf, right_keypoints_rectified_ sf).
Proof. cbn. repeat split. Qed.

Example setIsKeyframe_scenario :
  let sf' := setIsKeyframe true ExampleFrame.frame in
  (is_keyframe_ sf', Frame.isKeyframe_ (left_frame_ sf'),
   Frame.isKeyframe_ (right_frame_ sf')) = (true, true, true).
Proof. reflexivity. Qed.

(** ** Statistics on the right keypoints *)

Lemma count_status_total v :
  count_status VALID v + count_status NO_LEFT_RECT v
  + count_status NO_RIGHT_RECT v + count_status NO_DEPTH v
  + count_status FAILED_ARUN v = length v.
Proof.
  induction v as [|[[] px] v IH]; cbn [count_status KeypointStatus_eqb fst length];
    lia.
Qed.

Lemma count_status_le s v : count_status s v ≤ length v.
Proof.
  induction v as [|kp v IH]; cbn [count_status length]; [lia|].
  destruct (KeypointStatus_eqb kp.1 s); lia.
Qed.

Lemma counter_incr_Some counter_max n m :
  counter_incr counter_max n = Some m ↔ (n < counter_max ∧ m = n + 1)%Z.
Proof.
  unfold counter_incr. destruct (Z.ltb_spec n counter_max).
  - split; [intros [= <-]; done | intros [_ ->]; done].
  - split; [done | lia].
Qed.

(** What a completed loop has added to each counter. *)
Lemma checkStatusRightKeypoints_loop_Some counter_max v : ∀ info info',
  checkStatusRightKeypoints_loop counter_max v info = Some info' →
  nrValidRKP_ info' = (nrValidRKP_ info + Z.of_nat (count_status VALID v))%Z ∧
  nrNoLeftRectRKP_ info'
  = (nrNoLeftRectRKP_ info + Z.of_nat (count_status NO_LEFT_RECT v))%Z ∧
  nrNoRightRectRKP_ info'
  = (nrNoRightRectRKP_ info + Z.of_nat (count_status NO_RIGHT_RECT v))%Z ∧
  nrNoDepthRKP_ info'
  = (nrNoDepthRKP_ info + Z.of_nat (count_status NO_DEPTH v))%Z ∧
  nrFailedArunRKP_ info'
  = (nrFailedArunRKP_ info + Z.of_nat (count_status FAILED_ARUN v))%Z.
Proof.
  induction v as [|[st px] v IH]; intros info info';
    cbn [checkStatusRightKeypoints_loop].
  - intros [= <-]. cbn [count_status]. lia.
  - destruct (checkStatusRightKeypoints_body counter_max info (st, px))
      as [info1|] eqn:Hbody; [|done].
    cbn [mbind option_bind]. intros Hloop%IH.
    unfold checkStatusRightKeypoints_body in Hbody. cbn [fst] in Hbody.
    destruct st; cbn [count_status KeypointStatus_eqb fst];
      (destruct (counter_incr counter_max _) as [n|] eqn:Hn; [|done]);
      apply counter_incr_Some in Hn as [_ ->];
      injection Hbody as <-; cbn in Hloop; lia.
Qed.

(** The loop completes when no counter has to go past [counter_max]. *)
Lemma checkStatusRightKeypoints_loop_completes counter_max v : ∀ info,
  (nrValidRKP_ info + Z.of_nat (count_status VALID v) ≤ counter_max)%Z →
  (nrNoLeftRectRKP_ info + Z.of_nat (count_status NO_LEFT_RECT v)
   ≤ counter_max)%Z →
  (nrNoRightRectRKP_ info + Z.of_nat (count_status NO_RIGHT_RECT v)
   ≤ counter_max)%Z →
  (nrNoDepthRKP_ info + Z.of_nat (count_status NO_DEPTH v) ≤ counter_max)%Z →
  (nrFailedArunRKP_ info + Z.of_nat (count_status FAILED_ARUN v)
   ≤ counter_max)%Z →
  is_Some (checkStatusRightKeypoints_loop counter_max v info).
Proof.
  induction v as [|[st px] v IH]; intros info H1 H2 H3 H4 H5;
    cbn [checkStatusRightKeypoints_loop]; [by eexists|].
  unfold checkStatusRightKeypoints_body. cbn [fst].
  cbn [count_status KeypointStatus_eqb fst] in H1, H2, H3, H4, H5.
  destruct st; cbn [KeypointStatus_eqb] in *; unfold counter_incr;
    (case_match eqn:Hlt; [|apply Z.ltb_ge in Hlt; lia]);
    cbn [mbind option_bind]; apply IH; cbn; lia.
Qed.

Lemma printKeypointStats_fold v : ∀ st,
  let st' := foldl printKeypointStats_body st v in
  nr_right_keypoints st' = nr_right_keypoints st ∧
  (n_valid st' mod 2 ^ 64
   = (n_valid st + Z.of_nat (count_status VALID v)) mod 2 ^ 64)%Z ∧
  (n_no_left_rect st' mod 2 ^ 64
   = (n_no_left_rect st + Z.of_nat (count_status NO_LEFT_RECT v)) mod 2 ^ 64)%Z ∧
  (n_no_right_rect st' mod 2 ^ 64
   = (n_no_right_rect st + Z.of_nat (count_status NO_RIGHT_RECT v)) mod 2 ^ 64)%Z ∧
  (n_no_depth st' mod 2 ^ 64
   = (n_no_depth st + Z.of_nat (count_status NO_DEPTH v)) mod 2 ^ 64)%Z ∧
  (n_failed_arun_rkp st' mod 2 ^ 64
   = (n_failed_arun_rkp st + Z.of_nat (count_status FAILED_ARUN v)) mod 2 ^ 64)%Z.
Proof.
  induction v as [|[s px] v IH]; intros st; cbn [foldl].
  - cbn [count_status]. rewrite !Z.add_0_r. done.
  - specialize (IH (printKeypointStats_body st (s, px))). cbn zeta in IH |- *.
    destruct IH as (-> & -> & -> & -> & -> & ->).
    unfold printKeypointStats_body, size_t_incr.
    destruct s; cbn [fst count_status KeypointStatus_eqb nr_right_keypoints
                     n_valid n_no_left_rect n_no_right_rect n_no_depth
                     n_failed_arun_rkp];
      rewrite ?Zplus_mod_idemp_l, ?Nat.add_0_l;
      repeat split; f_equal; lia.
Qed.

(** The state of the counters stays inside [size_t]. *)
Lemma printKeypointStats_fold_range v : ∀ st,
  let in_range n := (0 ≤ n < 2 ^ 64)%Z in
  in_range (n_valid st) → in_range (n_no_left_rect st) →
  in_range (n_no_right_rect st) → in_range (n_no_depth st) →
  in_range (n_failed_arun_rkp st) →
  let st' := foldl printKeypointStats_body st v in
  in_range (n_valid st') ∧ in_range (n_no_left_rect st') ∧
  in_range (n_no_right_rect st') ∧ in_range (n_no_depth st') ∧
  in_range (n_failed_arun_rkp st').
Proof.
  induction v as [|[s px] v IH]; intros st in_range H1 H2 H3 H4 H5;
    cbn [foldl]; [done|].
  apply IH; unfold printKeypointStats_body, size_t_incr;
    destruct s; cbn; try done; apply Z.mod_pos_bound; lia.
Qed.

(** ** More on [getDepthFromRectifiedMatches] *)

Lemma getDepthFromRectifiedMatches_Ok_inv left right fx baseline params out :
  getDepthFromRectifiedMatches left right fx baseline params = Ok out →
  length left = length right ∧
  out = (left,
         zip_with (right_after (dmul fx baseline) params) left right,
         zip_with (depth_after (dmul fx baseline) params) left right).
Proof.
  intros Hrun. destruct (decide (length left = length right)) as [Hlen|Hlen].
  - rewrite getDepthFromRectifiedMatches_returns in Hrun by done.
    by injection Hrun as <-.
  - by rewrite getDepthFromRectifiedMatches_size_mismatch in Hrun.
Qed.

Lemma depth_at_right_after fx_b params l r :
  depth_at fx_b params l (right_after fx_b params l r) = depth_at fx_b params l r.
Proof.
  unfold right_after, depth_at.
  destruct l as [[] lp], r as [[] rp]; cbn [fst snd KeypointStatus_eqb];
    try done.
  destruct (ge _ _) eqn:Hge; cbn [fst snd KeypointStatus_eqb]; [|done].
  destruct (_ || _) eqn:Hout; cbn [fst snd KeypointStatus_eqb]; [done|].
  by rewrite ?Hge, ?Hout.
Qed.

Lemma right_after_idempotent fx_b params left : ∀ right,
  zip_with (right_after fx_b params) left
    (zip_with (right_after fx_b params) left right)
  = zip_with (right_after fx_b params) left right.
Proof.
  induction left as [|l left IH]; intros [|r right]; cbn [zip_with]; try done.
  rewrite IH. f_equal. unfold right_after at 1 3.
  by rewrite depth_at_right_after.
Qed.

Lemma depth_after_idempotent fx_b params left : ∀ right,
  zip_with (depth_after fx_b params) left
    (zip_with (right_after fx_b params) left right)
  = zip_with (depth_after fx_b params) left right.
Proof.
  induction left as [|l left IH]; intros [|r right]; cbn [zip_with]; try done.
  rewrite IH. f_equal. unfold depth_after. by rewrite depth_at_right_after.
Qed.

(** The two outcomes of an iteration: the pair is accepted, or the depth is
    0.0 under a status other than VALID. *)
Lemma depth_at_cases fx_b params l r :
  let disparity := disparity_of l.2 r.2 in
  let depth := ddiv fx_b disparity in
  (depth_at fx_b params l r = (VALID, depth) ∧
   l.1 = VALID ∧ r.1 = VALID ∧ ge disparity zero = true ∧
   lt depth (min_point_dist_ params) = false ∧
   gt depth (max_point_dist_ params) = false) ∨
  (∃ s, depth_at fx_b params l r = (s, zero) ∧ s ≠ VALID ∧
        ((s = r.1 ∧ l.1 = VALID) ∨
         (s = NO_DEPTH ∧ l.1 = VALID ∧ r.1 = VALID) ∨
         (s = l.1 ∧ l.1 ≠ VALID))).
Proof.
  unfold depth_at.
  destruct l as [[] lp], r as [[] rp]; cbn [fst snd KeypointStatus_eqb];
    try (right; eexists; split; [done|]; split; [done|]; auto; fail).
  destruct (ge _ _) eqn:Hge;
    [|right; eexists; split; [done|]; split; [done|]; auto].
  destruct (lt _ _) eqn:Hlt; cbn [orb];
    [right; eexists; split; [done|]; split; [done|]; auto|].
  destruct (gt _ _) eqn:Hgt;
    [right; eexists; split; [done|]; split; [done|]; auto|].
  left. done.
Qed.

(** The entries of a returned call, index by index. *)
Lemma getDepthFromRectifiedMatches_Ok_lookup
    left right fx baseline params left' right' depths i r' :
  getDepthFromRectifiedMatches left right fx baseline params
  = Ok (left', right', depths) →
  right' !! i = Some r' →
  ∃ l r,
    left !! i = Some l ∧ right !! i = Some r ∧
    r' = ((depth_at (dmul fx baseline) params l r).1, r.2) ∧
    depths !! i = Some (depth_at (dmul fx baseline) params l r).2.
Proof.
  intros [Hlen [= -> -> ->]]%getDepthFromRectifiedMatches_Ok_inv.
  intros (l & r & -> & Hl & Hr)%lookup_zip_with_Some.
  exists l, r. split_and!; try done.
  by rewrite lookup_zip_with, Hl, Hr.
Qed.

Lemma right_after_pixels fx_b params left : ∀ right,
  length left = length right →
  (zip_with (right_after fx_b params) left right).*2 = right.*2.
Proof.
  induction left as [|l left IH]; intros [|r right] Hlen; try done.
  cbn [zip_with fmap list_fmap]. cbn in Hlen. f_equal. apply IH. lia.
Qed.

(** X1. The call either stops at its first check, exactly when the two
    vectors differ in size, or returns: the left vector as it was, a right
    vector of the same size with the same pixels, and one depth per
    keypoint. It has no other outcome. *)
Theorem getDepthFromRectifiedMatches_outcome left right fx baseline params :
  (length left ≠ length right ∧
   getDepthFromRectifiedMatches left right fx baseline params
   = Fatal DepthInputSizeMismatch) ∨
  (length left = length right ∧
   ∃ right' depths,
     getDepthFromRectifiedMatches left right fx baseline params
     = Ok (left, right', depths) ∧
     length right' = length right ∧
     length depths = length left ∧
     right'.*2 = right.*2).
Proof.
  destruct (decide (length left = length right)) as [Hlen|Hlen].
  - right. split; [done|]. eexists _, _. split.
    + by apply getDepthFromRectifiedMatches_returns.
    + rewrite length_zip_with_r_eq, length_zip_with_l_eq by done.
      by rewrite right_after_pixels.
  - left. split; [done|]. by apply getDepthFromRectifiedMatches_size_mismatch.
Qed.

(** X2. A returned call changes a right status in two ways only: to
    NO_DEPTH when both statuses were VALID, or to the left status when that
    one is not VALID. It never makes a status VALID. *)
Theorem getDepthFromRectifiedMatches_status_changes
    left right fx baseline params left' right' depths :
  getDepthFromRectifiedMatches left right fx baseline params
  = Ok (left', right', depths) →
  ∀ i l r r',
    left !! i = Some l → right !! i = Some r → right' !! i = Some r' →
    (r'.1 = r.1 ∨
     (r'.1 = NO_DEPTH ∧ l.1 = VALID ∧ r.1 = VALID) ∨
     (r'.1 = l.1 ∧ l.1 ≠ VALID)) ∧
    (r'.1 = VALID → l.1 = VALID ∧ r.1 = VALID).
Proof.
  intros Hrun i l r r' Hl Hr Hr'.
  destruct (getDepthFromRectifiedMatches_Ok_lookup _ _ _ _ _ _ _ _ _ _
              Hrun Hr') as (l0 & r0 & Hl0 & Hr0 & -> & _).
  rewrite Hl in Hl0. rewrite Hr in Hr0. injection Hl0 as <-.
  injection Hr0 as <-. cbn [fst].
  destruct (depth_at_cases (dmul fx baseline) params l r)
    as [(-> & ? & ? & _) | (s & -> & Hs & Hcase)]; cbn [fst].
  - split; [left; congruence | done].
  - split; [|done]. destruct Hcase as [[-> _] | [? | ?]]; auto.
Qed.

Lemma getDepthFromRectifiedMatches_status_changes_witness :
  (NO_DEPTH = VALID ∨
   (NO_DEPTH = NO_DEPTH ∧ VALID = VALID ∧ VALID = VALID) ∨
   (NO_DEPTH = VALID ∧ VALID ≠ VALID)) ∧
  (NO_DEPTH = VALID → VALID = VALID ∧ VALID = VALID).
Proof.
  apply (getDepthFromRectifiedMatches_status_changes
           [(VALID, Examples.px 100 5)] [(VALID, Examples.px 110 5)]
           (double_of_Z 500) (Examples.dq 1 5) Examples.params_01_50
           [(VALID, Examples.px 100 5)] [(NO_DEPTH, Examples.px 110 5)] [zero]
           eq_refl 0 (VALID, Examples.px 100 5) (VALID, Examples.px 110 5)
           (NO_DEPTH, Examples.px 110 5) eq_refl eq_refl eq_refl).
Defined.

(** X3. After a returned call, a right status other than VALID comes with
    the depth 0.0, and a VALID one with the quotient fx * baseline /
    disparity of a pair that was VALID on both sides, with a disparity >= 0
    and a quotient that is neither below the minimum nor above the maximum
    distance. *)
Theorem getDepthFromRectifiedMatches_depth_status
    left right fx baseline params left' right' depths :
  getDepthFromRectifiedMatches left right fx baseline params
  = Ok (left', right', depths) →
  ∀ i r', right' !! i = Some r' →
    ∃ l r d,
      left !! i = Some l ∧ right !! i = Some r ∧ depths !! i = Some d ∧
      (r'.1 ≠ VALID → d = zero) ∧
      (r'.1 = VALID →
         l.1 = VALID ∧ r.1 = VALID ∧
         ge (disparity_of l.2 r.2) zero = true ∧
         d = ddiv (dmul fx baseline) (disparity_of l.2 r.2) ∧
         lt d (min_point_dist_ params) = false ∧
         gt d (max_point_dist_ params) = false).
Proof.
  intros Hrun i r' Hr'.
  destruct (getDepthFromRectifiedMatches_Ok_lookup _ _ _ _ _ _ _ _ _ _
              Hrun Hr') as (l & r & Hl & Hr & -> & Hd).
  exists l, r, (depth_at (dmul fx baseline) params l r).2.
  split_and!; try done; cbn [fst];
    destruct (depth_at_cases (dmul fx baseline) params l r)
      as [(-> & ? & ? & ? & ? & ?) | (s & -> & Hs & _)]; cbn [fst snd];
    done.
Qed.

Lemma getDepthFromRectifiedMatches_depth_status_witness :
  ∃ l r d,
    [(VALID, Examples.px 110 5)] !! 0 = Some l ∧
    [(VALID, Examples.px 100 5)] !! 0 = Some r ∧
    [double_of_Z 10] !! 0 = Some d ∧
    (VALID ≠ VALID → d = zero) ∧
    (VALID = VALID →
       l.1 = VALID ∧ r.1 = VALID ∧
       ge (disparity_of l.2 r.2) zero = true ∧
       d = ddiv (dmul (double_of_Z 500) (Examples.dq 1 5))
                (disparity_of l.2 r.2) ∧
       lt d (min_point_dist_ Examples.params_01_50) = false ∧
       gt d (max_point_dist_ Examples.params_01_50) = false).
Proof.
  apply (getDepthFromRectifiedMatches_depth_status
           [(VALID, Examples.px 110 5)] [(VALID, Examples.px 100 5)]
           (double_of_Z 500) (Examples.dq 1 5) Examples.params_01_50
           [(VALID, Examples.px 110 5)] [(VALID, Examples.px 100 5)]
           [double_of_Z 10] eq_refl 0 (VALID, Examples.px 100 5) eq_refl).
Defined.

Lemma not_lt_positive_bound d lo :
  lt zero lo = true → lt d lo = false →
  gt d zero = true ∨ is_nan d = true.
Proof.
  destruct lo as [[]|[]| |[] ? ?]; try done;
    destruct d as [[]|[]| |[] ? ?]; cbn; auto; done.
Qed.

(** X4. With a minimum distance above zero, the depths of a returned call
    follow the sign rule that [checkStereoFrame] puts on z: under a VALID
    right status the depth is above zero, unless the quotient was a NaN;
    under any other status it is not above zero. *)
Theorem getDepthFromRectifiedMatches_sign_rule
    left right fx baseline params left' right' depths :
  getDepthFromRectifiedMatches left right fx baseline params
  = Ok (left', right', depths) →
  lt zero (min_point_dist_ params) = true →
  ∀ i r' d, right' !! i = Some r' → depths !! i = Some d →
    (r'.1 = VALID → gt d zero = true ∨ is_nan d = true) ∧
    (r'.1 ≠ VALID → le d zero = true).
Proof.
  intros Hrun Hmin i r' d Hr' Hd.
  destruct (getDepthFromRectifiedMatches_Ok_lookup _ _ _ _ _ _ _ _ _ _
              Hrun Hr') as (l & r & Hl & Hr & -> & Hd').
  pose proof (eq_trans (eq_sym Hd) Hd') as [= ->]. cbn [fst].
  destruct (depth_at_cases (dmul fx baseline) params l r)
    as [(-> & _ & _ & _ & Hlo & _) | (s & -> & Hs & _)]; cbn [fst snd].
  - split; [|done]. intros _. by eapply not_lt_positive_bound.
  - split; done.
Qed.

Lemma getDepthFromRectifiedMatches_sign_rule_witness :
  (VALID = VALID →
   gt (double_of_Z 10) zero = true ∨ is_nan (double_of_Z 10) = true) ∧
  (VALID ≠ VALID → le (double_of_Z 10) zero = true).
Proof.
  apply (getDepthFromRectifiedMatches_sign_rule
           [(VALID, Examples.px 110 5)] [(VALID, Examples.px 100 5)]
           (double_of_Z 500) (Examples.dq 1 5) Examples.params_01_50
           [(VALID, Examples.px 110 5)] [(VALID, Examples.px 100 5)]
           [double_of_Z 10] eq_refl eq_refl 0 (VALID, Examples.px 100 5)
           (double_of_Z 10) eq_refl eq_refl).
Defined.

Lemma count_status_VALID_right_after fx_b params left : ∀ right,
  count_status VALID (zip_with (right_after fx_b params) left right)
  ≤ count_status VALID left ∧
  count_status VALID (zip_with (right_after fx_b params) left right)
  ≤ count_status VALID right.
Proof.
  induction left as [|l left IH]; intros [|r right];
    cbn [zip_with count_status]; try lia.
  destruct (IH right) as [IHl IHr]. unfold right_after at 1 3. cbn [fst].
  destruct (depth_at_cases fx_b params l r)
    as [(-> & -> & -> & _) | (s & -> & Hs & _)]; cbn [fst KeypointStatus_eqb].
  - lia.
  - apply KeypointStatus_eqb_neq in Hs as ->.
    destruct (KeypointStatus_eqb l.1 VALID), (KeypointStatus_eqb r.1 VALID);
      lia.
Qed.

(** X5. Depth estimation never adds to the VALID right keypoints: after a
    returned call their number is at most what it was, and at most the
    number of VALID left keypoints. *)
Theorem getDepthFromRectifiedMatches_valid_count
    left right fx baseline params left' right' depths :
  getDepthFromRectifiedMatches left right fx baseline params
  = Ok (left', right', depths) →
  count_status VALID right' ≤ count_status VALID right ∧
  count_status VALID right' ≤ count_status VALID left.
Proof.
  intros [_ [= -> -> ->]]%getDepthFromRectifiedMatches_Ok_inv.
  destruct (count_status_VALID_right_after (dmul fx baseline) params
              left right). done.
Qed.

Lemma getDepthFromRectifiedMatches_valid_count_witness :
  count_status VALID [(NO_DEPTH, Examples.px 110 5)]
  ≤ count_status VALID [(VALID, Examples.px 110 5)] ∧
  count_status VALID [(NO_DEPTH, Examples.px 110 5)]
  ≤ count_status VALID [(VALID, Examples.px 100 5)].
Proof.
  apply (getDepthFromRectifiedMatches_valid_count
           [(VALID, Examples.px 100 5)] [(VALID, Examples.px 110 5)]
           (double_of_Z 500) (Examples.dq 1 5) Examples.params_01_50
           [(VALID, Examples.px 100 5)] [(NO_DEPTH, Examples.px 110 5)] [zero]).
  reflexivity.
Defined.

(** X6. Running depth estimation again on what it returned changes nothing. *)
Theorem getDepthFromRectifiedMatches_idempotent
    left right fx baseline params left' right' depths :
  getDepthFromRectifiedMatches left right fx baseline params
  = Ok (left', right', depths) →
  getDepthFromRectifiedMatches left' right' fx baseline params
  = Ok (left', right', depths).
Proof.
  intros [Hlen [= -> -> ->]]%getDepthFromRectifiedMatches_Ok_inv.
  rewrite getDepthFromRectifiedMatches_returns
    by (by rewrite length_zip_with_l_eq).
  by rewrite right_after_idempotent, depth_after_idempotent.
Qed.

Lemma getDepthFromRectifiedMatches_idempotent_witness :
  getDepthFromRectifiedMatches
    [(VALID, Examples.px 100 5)] [(NO_DEPTH, Examples.px 110 5)]
    (double_of_Z 500) (Examples.dq 1 5) Examples.params_01_50
  = Ok ([(VALID, Examples.px 100 5)], [(NO_DEPTH, Examples.px 110 5)], [zero]).
Proof.
  apply (getDepthFromRectifiedMatches_idempotent
           [(VALID, Examples.px 100 5)] [(VALID, Examples.px 110 5)]
           (double_of_Z 500) (Examples.dq 1 5) Examples.params_01_50).
  reflexivity.
Defined.

(** X7. With a debug record at hand and counters that can hold the size of
    the vector, [checkStatusRightKeypoints] returns; each of its five
    counters is the number of right rectified keypoints with that status,
    whatever the record held before, and the five add up to the size of the
    vector. *)
Theorem checkStatusRightKeypoints_counts counter_max old sf :
  (Z.of_nat (length (right_keypoints_rectified_ sf)) ≤ counter_max)%Z →
  let count s := Z.of_nat (count_status s (right_keypoints_rectified_ sf)) in
  ∃ info,
    checkStatusRightKeypoints counter_max (Some old) sf = TallyOk info ∧
    info = mkDebugTrackerInfo (count VALID) (count NO_LEFT_RECT)
             (count NO_RIGHT_RECT) (count NO_DEPTH) (count FAILED_ARUN) ∧
    (nrValidRKP_ info + nrNoLeftRectRKP_ info + nrNoRightRectRKP_ info
     + nrNoDepthRKP_ info + nrFailedArunRKP_ info)%Z
    = Z.of_nat (length (right_keypoints_rectified_ sf)).
Proof.
  intros Hmax count. unfold checkStatusRightKeypoints.
  set (v := right_keypoints_rectified_ sf) in *.
  destruct (checkStatusRightKeypoints_loop_completes counter_max v
              (mkDebugTrackerInfo 0 0 0 0 0)) as [info Hloop];
    cbn [nrValidRKP_ nrNoLeftRectRKP_ nrNoRightRectRKP_ nrNoDepthRKP_
         nrFailedArunRKP_];
    try (pose proof (count_status_le VALID v);
         pose proof (count_status_le NO_LEFT_RECT v);
         pose proof (count_status_le NO_RIGHT_RECT v);
         pose proof (count_status_le NO_DEPTH v);
         pose proof (count_status_le FAILED_ARUN v); lia).
  rewrite Hloop. exists info. split; [done|].
  apply checkStatusRightKeypoints_loop_Some in Hloop
    as (H1 & H2 & H3 & H4 & H5). cbn in H1, H2, H3, H4, H5.
  pose proof (count_status_total v) as Htotal.
  split; [by destruct info; cbn in *; subst | lia].
Qed.

Lemma checkStatusRightKeypoints_counts_witness :
  checkStatusRightKeypoints (2 ^ 31 - 1)
    (Some (mkDebugTrackerInfo 9 9 9 9 9)) ExampleFrame.frame
  = TallyOk (mkDebugTrackerInfo 1 1 0 1 0).
Proof.
  destruct (checkStatusRightKeypoints_counts (2 ^ 31 - 1)
              (mkDebugTrackerInfo 9 9 9 9 9) ExampleFrame.frame)
    as (info & Hrun & -> & _); [cbn; lia|].
  exact Hrun.
Defined.

Lemma printKeypointStats_value (v : StatusKeypointsCV) :
  (Z.of_nat (length v) < 2 ^ 64)%Z →
  printKeypointStats v
  = mkKeypointStats (Z.of_nat (length v))
      (Z.of_nat (count_status VALID v))
      (Z.of_nat (count_status NO_LEFT_RECT v))
      (Z.of_nat (count_status NO_RIGHT_RECT v))
      (Z.of_nat (count_status NO_DEPTH v))
      (Z.of_nat (count_status FAILED_ARUN v)).
Proof.
  intros Hsize. unfold printKeypointStats.
  set (st0 := mkKeypointStats (Z.of_nat (length v)) 0 0 0 0 0).
  destruct (printKeypointStats_fold v st0) as (Hn & H1 & H2 & H3 & H4 & H5).
  destruct (printKeypointStats_fold_range v st0)
    as (R1 & R2 & R3 & R4 & R5); cbn; try lia.
  pose proof (count_status_le VALID v).
  pose proof (count_status_le NO_LEFT_RECT v).
  pose proof (count_status_le NO_RIGHT_RECT v).
  pose proof (count_status_le NO_DEPTH v).
  pose proof (count_status_le FAILED_ARUN v).
  cbn [st0 nr_right_keypoints n_valid n_no_left_rect n_no_right_rect
       n_no_depth n_failed_arun_rkp] in Hn, H1, H2, H3, H4, H5.
  rewrite Z.mod_small in H1, H2, H3, H4, H5 by done.
  rewrite Z.add_0_l, Z.mod_small in H1, H2, H3, H4, H5 by lia.
  destruct (foldl printKeypointStats_body st0 v). cbn in *. by subst.
Qed.

(** X8. For a vector whose size fits a [size_t], the numbers that
    [printKeypointStats] logs are the size of the vector and, for each
    status, the number of keypoints that carry it; the five counts add up to
    the size. *)
Theorem printKeypointStats_counts (v : StatusKeypointsCV) :
  (Z.of_nat (length v) < 2 ^ 64)%Z →
  let count s := Z.of_nat (count_status s v) in
  printKeypointStats v
  = mkKeypointStats (Z.of_nat (length v)) (count VALID) (count NO_LEFT_RECT)
      (count NO_RIGHT_RECT) (count NO_DEPTH) (count FAILED_ARUN) ∧
  (count VALID + count NO_LEFT_RECT + count NO_RIGHT_RECT + count NO_DEPTH
   + count FAILED_ARUN)%Z = Z.of_nat (length v).
Proof.
  intros Hsize count. split; [by apply printKeypointStats_value|].
  pose proof (count_status_total v). unfold count. lia.
Qed.

Lemma printKeypointStats_counts_witness :
  printKeypointStats (right_keypoints_rectified_ ExampleFrame.frame)
  = mkKeypointStats 3 1 1 0 1 0.
Proof.
  refine (proj1 (printKeypointStats_counts
                   (right_keypoints_rectified_ ExampleFrame.frame) _)).
  cbn. lia.
Defined.

(** X9. The two tallies agree: when [checkStatusRightKeypoints] returns on a
    frame, its five counters are the five counts that [printKeypointStats]
    logs for the right rectified keypoints of that frame. *)
Theorem checkStatusRightKeypoints_agrees_with_printKeypointStats
    counter_max debug_info sf info :
  checkStatusRightKeypoints counter_max debug_info sf = TallyOk info →
  (Z.of_nat (length (right_keypoints_rectified_ sf)) < 2 ^ 64)%Z →
  let stats := printKeypointStats (right_keypoints_rectified_ sf) in
  nrValidRKP_ info = n_valid stats ∧
  nrNoLeftRectRKP_ info = n_no_left_rect stats ∧
  nrNoRightRectRKP_ info = n_no_right_rect stats ∧
  nrNoDepthRKP_ info = n_no_depth stats ∧
  nrFailedArunRKP_ info = n_failed_arun_rkp stats.
Proof.
  intros Hrun Hsize. unfold checkStatusRightKeypoints in Hrun.
  destruct debug_info as [old|]; [|done].
  destruct (checkStatusRightKeypoints_loop _ _ _) as [info'|] eqn:Hloop;
    [|done].
  injection Hrun as ->.
  apply checkStatusRightKeypoints_loop_Some in Hloop
    as (-> & -> & -> & -> & ->).
  rewrite (printKeypointStats_value _ Hsize). cbn. lia.
Qed.

Lemma checkStatusRightKeypoints_agrees_with_printKeypointStats_witness :
  let stats := printKeypointStats (right_keypoints_rectified_ ExampleFrame.frame) in
  1%Z = n_valid stats ∧ 1%Z = n_no_left_rect stats ∧
  0%Z = n_no_right_rect stats ∧ 1%Z = n_no_depth stats ∧
  0%Z = n_failed_arun_rkp stats.
Proof.
  apply (checkStatusRightKeypoints_agrees_with_printKeypointStats
           (2 ^ 31 - 1) (Some (mkDebugTrackerInfo 0 0 0 0 0))
           ExampleFrame.frame (mkDebugTrackerInfo 1 1 0 1 0) eq_refl).
  cbn. lia.
Defined.

Lemma StereoFrame_new_fresh id timestamp left_frame right_frame sf :
  StereoFrame_new id timestamp left_frame right_frame = Ok sf →
  sf = mkStereoFrame id timestamp left_frame right_frame false false [] [] [].
Proof.
  unfold StereoFrame_new. rewrite !CHECK_bind_Ok.
  by intros (_ & _ & _ & _ & [= <-]).
Qed.

(** ** More on [checkStereoFrame] and the constructor *)

(** What a passing check has verified at an index. *)
Lemma checkStereoFrame_Ok_index sf i lk rk kp p :
  checkStereoFrame sf = Ok () →
  left_keypoints_rectified_ sf !! i = Some lk →
  right_keypoints_rectified_ sf !! i = Some rk →
  Frame.keypoints_ (right_frame_ sf) !! i = Some kp →
  keypoints_3d_ sf !! i = Some p →
  if KeypointStatus_eqb rk.1 VALID then
    le (fabs (fsub (y rk.2) (y lk.2))) (float_of_Z 3) = true ∧
    ne (fadd (fabs (x kp)) (fabs (y kp))) (float_of_Z 0) = true ∧
    gt (vz p) zero = true
  else le (vz p) zero = true.
Proof.
  intros [Hsizes Hbody]%checkStereoFrame_Ok Hlk Hrk Hkp Hp.
  destruct Hsizes as (_ & _ & Hn & _ & _).
  apply lookup_lt_Some in Hp as Hi. rewrite Hn in Hi.
  specialize (Hbody i Hi).
  rewrite (checkStereoFrame_body_inside sf i rk lk kp p) in Hbody by done.
  destruct (KeypointStatus_eqb rk.1 VALID).
  - by rewrite !CHECK_bind_Ok, CHECK_Ok in Hbody.
  - by apply CHECK_Ok in Hbody.
Qed.

(** X10. [checkStereoFrame] passes exactly when the five sizes agree and, at
    every index, a VALID right status comes with rectified rows at most 3
    pixels apart, a right keypoint other than (0, 0) and z > 0, and any other
    right status with z <= 0. *)
Theorem checkStereoFrame_passes_iff sf :
  checkStereoFrame sf = Ok () ↔
  sizes_agree sf ∧
  ∀ i lk rk kp p,
    left_keypoints_rectified_ sf !! i = Some lk →
    right_keypoints_rectified_ sf !! i = Some rk →
    Frame.keypoints_ (right_frame_ sf) !! i = Some kp →
    keypoints_3d_ sf !! i = Some p →
    if KeypointStatus_eqb rk.1 VALID then
      le (fabs (fsub (y rk.2) (y lk.2))) (float_of_Z 3) = true ∧
      ne (fadd (fabs (x kp)) (fabs (y kp))) (float_of_Z 0) = true ∧
      gt (vz p) zero = true
    else le (vz p) zero = true.
Proof.
  split.
  - intros Hok. split; [by apply checkStereoFrame_Ok in Hok as [? _]|].
    intros i lk rk kp p. by apply checkStereoFrame_Ok_index.
  - intros [Hsizes Hall]. apply checkStereoFrame_Ok. split; [done|].
    intros i Hi.
    destruct Hsizes as (_ & Hkp & Hp & Hlk & Hrk).
    destruct (lookup_lt_is_Some_2 (Frame.keypoints_ (right_frame_ sf)) i)
      as [kp Ekp]; [lia|].
    destruct (lookup_lt_is_Some_2 (keypoints_3d_ sf) i) as [p Ep]; [lia|].
    destruct (lookup_lt_is_Some_2 (left_keypoints_rectified_ sf) i)
      as [lk Elk]; [lia|].
    destruct (lookup_lt_is_Some_2 (right_keypoints_rectified_ sf) i)
      as [rk Erk]; [lia|].
    rewrite (checkStereoFrame_body_inside sf i rk lk kp p) by done.
    specialize (Hall i lk rk kp p Elk Erk Ekp Ep).
    destruct (KeypointStatus_eqb rk.1 VALID).
    + by rewrite !CHECK_bind_Ok, CHECK_Ok.
    + by apply CHECK_Ok.
Qed.

(** X11. A 3D point whose z is a NaN fails the check under any status. *)
Theorem checkStereoFrame_rejects_NaN_depth sf i p :
  keypoints_3d_ sf !! i = Some p →
  is_nan (vz p) = true →
  ∃ e, checkStereoFrame sf = Fatal e.
Proof.
  intros Hp Hnan.
  destruct (checkStereoFrame_Ok_or_Fatal sf) as [Hok | Hfatal]; [|done].
  apply checkStereoFrame_Ok in Hok as [Hsizes Hbody].
  destruct Hsizes as (_ & _ & Hn & _ & Hrk).
  apply lookup_lt_Some in Hp as Hi. rewrite Hn in Hi.
  destruct (lookup_lt_is_Some_2 (right_keypoints_rectified_ sf) i)
    as [rk Erk]; [lia|].
  pose proof (checkStereoFrame_body_Ok_sign sf i rk p Erk Hp (Hbody i Hi))
    as Hsign.
  destruct (vz p); try done. by destruct (KeypointStatus_eqb rk.1 VALID).
Qed.

Lemma checkStereoFrame_rejects_NaN_depth_witness :
  ∃ e,
    checkStereoFrame
      (mkStereoFrame 1 100 ExampleFrame.left_frame ExampleFrame.right_frame
         false true
         [mkVector3 zero zero quiet_NaN; mkVector3 zero zero zero;
          mkVector3 zero zero zero]
         (left_keypoints_rectified_ ExampleFrame.frame)
         (right_keypoints_rectified_ ExampleFrame.frame))
    = Fatal e.
Proof.
  apply (checkStereoFrame_rejects_NaN_depth _ 0 (mkVector3 zero zero quiet_NaN));
    reflexivity.
Defined.

(** X12. The keyframe flags play no part in the checks, the statistics or
    the measurements: after [setIsKeyframe] each of them gives what it gave
    before. *)
Theorem setIsKeyframe_is_not_observed is_kf sf :
  checkStereoFrame (setIsKeyframe is_kf sf) = checkStereoFrame sf ∧
  (∀ ptr use,
     getSmartStereoMeasurements ptr use (setIsKeyframe is_kf sf)
     = getSmartStereoMeasurements ptr use sf) ∧
  (∀ counter_max debug_info,
     checkStatusRightKeypoints counter_max debug_info (setIsKeyframe is_kf sf)
     = checkStatusRightKeypoints counter_max debug_info sf).
Proof. split_and!; reflexivity. Qed.

(** X13. The constructor returns exactly when both frames carry the given
    id and timestamp; the frame it returns holds the two frames, is neither
    a keyframe nor rectified, and has no rectified keypoint and no 3D point.
    In every other case it fails fatally. *)
Theorem StereoFrame_new_outcome id timestamp left_frame right_frame :
  let fresh :=
    mkStereoFrame id timestamp left_frame right_frame false false [] [] [] in
  (id = Frame.id_ left_frame ∧ id = Frame.id_ right_frame ∧
   timestamp = Frame.timestamp_ left_frame ∧
   timestamp = Frame.timestamp_ right_frame ∧
   StereoFrame_new id timestamp left_frame right_frame = Ok fresh) ∨
  (¬ (id = Frame.id_ left_frame ∧ id = Frame.id_ right_frame ∧
      timestamp = Frame.timestamp_ left_frame ∧
      timestamp = Frame.timestamp_ right_frame) ∧
   ∃ e, StereoFrame_new id timestamp left_frame right_frame = Fatal e).
Proof.
  intros fresh. unfold StereoFrame_new, CHECK.
  destruct (Z.eqb_spec id (Frame.id_ left_frame));
    [|right; split; [tauto | by eexists]].
  destruct (Z.eqb_spec id (Frame.id_ right_frame));
    [|right; split; [tauto | by eexists]].
  destruct (Z.eqb_spec timestamp (Frame.timestamp_ left_frame));
    [|right; split; [tauto | by eexists]].
  destruct (Z.eqb_spec timestamp (Frame.timestamp_ right_frame));
    [|right; split; [tauto | by eexists]].
  left. done.
Qed.

(** X14. A frame straight from the constructor cannot give measurements,
    the call fails on the rectification check, and it passes
    [checkStereoFrame] only when its left frame has neither keypoints nor
    scores and its right frame no keypoints. *)
Theorem StereoFrame_new_not_ready id timestamp left_frame right_frame sf :
  StereoFrame_new id timestamp left_frame right_frame = Ok sf →
  (∀ old use,
     getSmartStereoMeasurements (Some old) use sf = Fatal NotRectified) ∧
  (checkStereoFrame sf = Ok () ↔
   Frame.keypoints_ left_frame = [] ∧ Frame.scores_ left_frame = [] ∧
   Frame.keypoints_ right_frame = []).
Proof.
  intros Hnew.
  pose proof (StereoFrame_new_fresh _ _ _ _ _ Hnew) as ->.
  split; [done|]. rewrite checkStereoFrame_Ok. unfold sizes_agree. cbn.
  split.
  - intros [(Hs & Hr & Hn & _) _].
    destruct (Frame.keypoints_ left_frame); [|done].
    destruct (Frame.scores_ left_frame); [|done].
    by destruct (Frame.keypoints_ right_frame).
  - intros (-> & -> & ->). split; [done|]. cbn. lia.
Qed.

Lemma StereoFrame_new_not_ready_witness :
  ∃ sf,
    StereoFrame_new 1 100 ExampleFrame.left_frame ExampleFrame.right_frame
    = Ok sf ∧
    getSmartStereoMeasurements (Some []) true sf = Fatal NotRectified ∧
    checkStereoFrame sf = Fatal Keypoints3dSize.
Proof.
  eexists. split; [reflexivity|].
  split; [|reflexivity].
  apply (StereoFrame_new_not_ready 1 100 ExampleFrame.left_frame
           ExampleFrame.right_frame _ eq_refl).
Defined.

(** ** More on [getSmartStereoMeasurements] *)

Section MeasurementLoops.
Variables (sf : StereoFrame).
Hypothesis rectified_sizes :
  length (left_keypoints_rectified_ sf) = length (right_keypoints_rectified_ sf).

(** The landmark ids that the loop appends, in order. *)
Lemma measurements_loop_ids use count : ∀ start out out',
  for_loop (getSmartStereoMeasurements_body sf use) count start out = Ok out' →
  out'.*1 = out.*1 ++
            filter (λ lmk_id, lmk_id ≠ (-1)%Z)
                   (take count (drop start (Frame.landmarks_ (left_frame_ sf)))).
Proof.
  induction count as [|count IH]; intros start out out'; cbn [for_loop].
  - intros [= <-]. by rewrite take_0, filter_nil, app_nil_r.
  - rewrite getSmartStereoMeasurements_body_eq by done.
    destruct (Frame.landmarks_ (left_frame_ sf) !! start) as [lmk_id|] eqn:Hlmk;
      [|done].
    rewrite (drop_S _ _ _ Hlmk). cbn [take]. rewrite filter_cons.
    destruct (Z.eqb_spec lmk_id (-1)) as [->|Hne]; cbn [mbind result_bind].
    + rewrite decide_False by (intros ?; done). apply IH.
    + rewrite decide_True by done.
      destruct (observation_at sf use start) as [m|] eqn:Hm; [|done].
      cbn [mbind result_bind]. intros ->%IH.
      apply observation_at_Some in Hm as [Hm _].
      rewrite Hlmk in Hm. injection Hm as ->.
      by rewrite fmap_app, <- app_assoc.
Qed.

(** The measurement without its right coordinate. *)
Lemma observation_at_mono i :
  observation_at sf false i
  = (λ m, (m.1, mkStereoPoint2 (uL m.2) quiet_NaN (v m.2)))
    <$> observation_at sf true i.
Proof.
  unfold observation_at.
  destruct (Frame.landmarks_ (left_frame_ sf) !! i) as [lmk_id|]; [|done].
  cbn [mbind option_bind]. destruct (lmk_id =? -1)%Z; [done|].
  destruct (left_keypoints_rectified_ sf !! i); [|done].
  by destruct (right_keypoints_rectified_ sf !! i).
Qed.

Lemma measurements_loop_mono count : ∀ start out out',
  for_loop (getSmartStereoMeasurements_body sf true) count start out = Ok out' →
  for_loop (getSmartStereoMeasurements_body sf false) count start
    ((λ m, (m.1, mkStereoPoint2 (uL m.2) quiet_NaN (v m.2))) <$> out)
  = Ok ((λ m, (m.1, mkStereoPoint2 (uL m.2) quiet_NaN (v m.2))) <$> out').
Proof.
  induction count as [|count IH]; intros start out out'; cbn [for_loop].
  - by intros [= <-].
  - rewrite !getSmartStereoMeasurements_body_eq by done.
    destruct (Frame.landmarks_ (left_frame_ sf) !! start) as [lmk_id|];
      [|done].
    destruct (lmk_id =? -1)%Z; cbn [mbind result_bind]; [apply IH|].
    rewrite observation_at_mono.
    destruct (observation_at sf true start) as [m|]; [|done].
    cbn [mbind result_bind fmap option_fmap option_map]. intros Hrest%IH.
    by rewrite fmap_app in Hrest.
Qed.

(** The loop throws at a landmark id other than -1 whose index is outside
    the rectified keypoints. *)
Lemma measurements_loop_throws use count : ∀ start out j lmk_id,
  start ≤ j < start + count →
  Frame.landmarks_ (left_frame_ sf) !! j = Some lmk_id →
  lmk_id ≠ (-1)%Z →
  length (left_keypoints_rectified_ sf) ≤ j →
  for_loop (getSmartStereoMeasurements_body sf use) count start out
  = OutOfRange.
Proof.
  induction count as [|count IH]; intros start out j lmk_id Hj Hlmk Hne Hout;
    [lia|].
  cbn [for_loop]. rewrite getSmartStereoMeasurements_body_eq by done.
  destruct (decide (j = start)) as [->|Hjs].
  - rewrite Hlmk. destruct (Z.eqb_spec lmk_id (-1)); [done|].
    unfold observation_at. rewrite Hlmk. cbn [mbind option_bind].
    destruct (Z.eqb_spec lmk_id (-1)); [done|].
    by rewrite (lookup_ge_None_2 (left_keypoints_rectified_ sf) start).
  - destruct (Frame.landmarks_ (left_frame_ sf) !! start) as [lmk0|]; [|done].
    destruct (lmk0 =? -1)%Z; cbn [mbind result_bind];
      [by apply (IH _ _ j lmk_id); [lia|..]|].
    destruct (observation_at sf use start); [|done].
    cbn [mbind result_bind]. by apply (IH _ _ j lmk_id); [lia|..].
Qed.
End MeasurementLoops.

(** X15. The landmark ids of a returned call are the landmark ids of the
    left frame other than -1, in their order; so the call returns as many
    measurements as there are such ids. *)
Theorem getSmartStereoMeasurements_ids ptr use sf out :
  getSmartStereoMeasurements ptr use sf = Ok out →
  out.*1 = filter (λ lmk_id, lmk_id ≠ (-1)%Z)
                  (Frame.landmarks_ (left_frame_ sf)) ∧
  length out = length (filter (λ lmk_id, lmk_id ≠ (-1)%Z)
                              (Frame.landmarks_ (left_frame_ sf))).
Proof.
  intros Hrun.
  assert (out.*1 = filter (λ lmk_id, lmk_id ≠ (-1)%Z)
                          (Frame.landmarks_ (left_frame_ sf))) as Hids.
  { destruct (getSmartStereoMeasurements_Ok _ _ _ _ Hrun)
      as (_ & _ & Hchk & _).
    apply checkStereoFrame_rectified_sizes in Hchk as [Hl Hr].
    unfold getSmartStereoMeasurements in Hrun.
    destruct ptr as [old|]; [|done].
    apply CHECK_bind_Ok in Hrun as [_ Hrun].
    destruct (checkStereoFrame sf) as [[]| | |]; try done.
    cbn [mbind result_bind] in Hrun.
    apply measurements_loop_ids in Hrun; [|congruence].
    by rewrite drop_0, firstn_all in Hrun. }
  split; [done|]. by rewrite <- Hids, length_fmap.
Qed.

Lemma getSmartStereoMeasurements_ids_witness :
  ExampleFrame.measurements.*1 = [7; 9]%Z ∧
  length ExampleFrame.measurements = 2.
Proof.
  apply (getSmartStereoMeasurements_ids (Some []) true ExampleFrame.frame
           ExampleFrame.measurements eq_refl).
Defined.

(** X16. Without stereo measurements every right coordinate of a returned
    call is the NaN of a missing value. *)
Theorem getSmartStereoMeasurements_mono_is_NaN ptr sf out :
  getSmartStereoMeasurements ptr false sf = Ok out →
  ∀ m, m ∈ out → uR m.2 = quiet_NaN.
Proof.
  intros (_ & _ & _ & ->)%getSmartStereoMeasurements_Ok m.
  intros (i & _ & Hm)%list_elem_of_omap.
  unfold observation_at in Hm.
  destruct (Frame.landmarks_ (left_frame_ sf) !! i) as [lmk_id|]; [|done].
  cbn [mbind option_bind] in Hm. destruct (lmk_id =? -1)%Z; [done|].
  destruct (left_keypoints_rectified_ sf !! i); [|done].
  destruct (right_keypoints_rectified_ sf !! i); [|done].
  cbn [mbind option_bind] in Hm. by injection Hm as <-.
Qed.

Lemma getSmartStereoMeasurements_mono_is_NaN_witness :
  uR (9%Z, mkStereoPoint2 (double_of_Z 50) quiet_NaN (double_of_Z 7)).2
  = quiet_NaN.
Proof.
  apply (getSmartStereoMeasurements_mono_is_NaN (Some [])
           ExampleFrame.frame ExampleFrame.measurements_mono eq_refl).
  apply list_elem_of_further, list_elem_of_here.
Defined.

(** X17. Turning stereo measurements off only drops the right coordinates:
    where the call with stereo measurements returns, the call without them
    returns the same landmark ids with the same left u and v, and NaN as
    every right coordinate. *)
Theorem getSmartStereoMeasurements_mono_of_stereo old old' sf out :
  getSmartStereoMeasurements (Some old) true sf = Ok out →
  getSmartStereoMeasurements (Some old') false sf
  = Ok ((λ m, (m.1, mkStereoPoint2 (uL m.2) quiet_NaN (v m.2))) <$> out).
Proof.
  intros Hrun.
  destruct (getSmartStereoMeasurements_Ok _ _ _ _ Hrun)
    as (_ & Hrect & Hchk & _).
  unfold getSmartStereoMeasurements in *.
  rewrite Hrect, Hchk in *. cbn [CHECK mbind result_bind] in *.
  apply checkStereoFrame_rectified_sizes in Hchk as [Hl Hr].
  apply measurements_loop_mono in Hrun; [done | congruence].
Qed.

Lemma getSmartStereoMeasurements_mono_of_stereo_witness :
  getSmartStereoMeasurements (Some ExampleFrame.measurements) false
    ExampleFrame.frame = Ok ExampleFrame.measurements_mono.
Proof.
  apply (getSmartStereoMeasurements_mono_of_stereo [] ExampleFrame.measurements
           ExampleFrame.frame ExampleFrame.measurements eq_refl).
Defined.

(** X18. [checkStereoFrame] does not look at the landmark ids: on a
    rectified frame that passes it, a landmark id other than -1 whose index
    is outside the keypoints makes the call throw [std::out_of_range]. *)
Theorem getSmartStereoMeasurements_throws old use sf j lmk_id :
  is_rectified_ sf = true →
  checkStereoFrame sf = Ok () →
  Frame.landmarks_ (left_frame_ sf) !! j = Some lmk_id →
  lmk_id ≠ (-1)%Z →
  length (Frame.keypoints_ (left_frame_ sf)) ≤ j →
  getSmartStereoMeasurements (Some old) use sf = OutOfRange.
Proof.
  intros Hrect Hchk Hlmk Hne Hj. unfold getSmartStereoMeasurements.
  rewrite Hrect, Hchk. cbn [CHECK mbind result_bind].
  apply checkStereoFrame_rectified_sizes in Hchk as [Hl Hr].
  apply (measurements_loop_throws sf ltac:(congruence) use _ _ _ j lmk_id);
    try done; [|lia].
  apply lookup_lt_Some in Hlmk. lia.
Qed.

Lemma getSmartStereoMeasurements_throws_witness :
  getSmartStereoMeasurements (Some []) true MoreExamples.frame_extra_landmark
  = OutOfRange.
Proof.
  apply (getSmartStereoMeasurements_throws [] true
           MoreExamples.frame_extra_landmark 3 11%Z);
    [reflexivity | reflexivity | reflexivity | discriminate | cbn; lia].
Defined.

(** X19. A measurement of a returned call whose right coordinate is not a
    NaN was asked for with stereo measurements and belongs to an index with
    a VALID right status: its right coordinate is the x of that right
    rectified keypoint, the 3D point of the index has z > 0, and the
    rectified rows of the pair are at most 3 pixels apart. *)
Theorem getSmartStereoMeasurements_right_coordinate ptr use sf out :
  getSmartStereoMeasurements ptr use sf = Ok out →
  ∀ m, m ∈ out → is_nan (uR m.2) = false →
    use = true ∧
    ∃ i lk rk p,
      Frame.landmarks_ (left_frame_ sf) !! i = Some m.1 ∧
      left_keypoints_rectified_ sf !! i = Some lk ∧
      right_keypoints_rectified_ sf !! i = Some rk ∧
      keypoints_3d_ sf !! i = Some p ∧
      rk.1 = VALID ∧
      uR m.2 = widen (x rk.2) ∧
      gt (vz p) zero = true ∧
      le (fabs (fsub (y rk.2) (y lk.2))) (float_of_Z 3) = true.
Proof.
  intros (_ & _ & Hchk & ->)%getSmartStereoMeasurements_Ok m.
  intros (i & _ & Hm)%list_elem_of_omap Hnan.
  pose proof (observation_at_Some _ _ _ _ Hm) as [Hlmk _].
  destruct m as [lmk_id obs]. cbn [fst snd] in *.
  unfold observation_at in Hm. rewrite Hlmk in Hm.
  cbn [mbind option_bind] in Hm. destruct (lmk_id =? -1)%Z; [done|].
  destruct (left_keypoints_rectified_ sf !! i) as [lk|] eqn:Hlk; [|done].
  destruct (right_keypoints_rectified_ sf !! i) as [rk|] eqn:Hrk; [|done].
  cbn [mbind option_bind] in Hm. injection Hm as <-. cbn [uR] in Hnan |- *.
  destruct use; cbn [andb] in Hnan |- *; [|done].
  destruct (KeypointStatus_eqb rk.1 VALID) eqn:Hst; [|done].
  split; [done|].
  pose proof (proj1 (checkStereoFrame_Ok sf) Hchk)
    as [(_ & Hkp & Hp & _ & Hr) _].
  apply lookup_lt_Some in Hrk as Hi.
  destruct (lookup_lt_is_Some_2 (Frame.keypoints_ (right_frame_ sf)) i)
    as [kp Ekp]; [lia|].
  destruct (lookup_lt_is_Some_2 (keypoints_3d_ sf) i) as [p Ep]; [lia|].
  pose proof (checkStereoFrame_Ok_index sf i lk rk kp p Hchk Hlk Hrk Ekp Ep)
    as Hidx.
  rewrite Hst in Hidx. destruct Hidx as (Hy & _ & Hz).
  exists i, lk, rk, p. split_and!; try done.
  by apply KeypointStatus_eqb_eq.
Qed.

Lemma getSmartStereoMeasurements_right_coordinate_witness :
  true = true ∧
  ∃ i lk rk p,
    Frame.landmarks_ (left_frame_ ExampleFrame.frame) !! i = Some 7%Z ∧
    left_keypoints_rectified_ ExampleFrame.frame !! i = Some lk ∧
    right_keypoints_rectified_ ExampleFrame.frame !! i = Some rk ∧
    keypoints_3d_ ExampleFrame.frame !! i = Some p ∧
    rk.1 = VALID ∧
    double_of_Z 100 = widen (x rk.2) ∧
    gt (vz p) zero = true ∧
    le (fabs (fsub (y rk.2) (y lk.2))) (float_of_Z 3) = true.
Proof.
  apply (getSmartStereoMeasurements_right_coordinate (Some []) true
           ExampleFrame.frame ExampleFrame.measurements eq_refl
           (7%Z, mkStereoPoint2 (double_of_Z 110) (double_of_Z 100)
                   (double_of_Z 5)));
    [apply list_elem_of_here | reflexivity].
Defined.

(** ** [drawEpipolarLines] *)

Lemma int_value_Ok n : (INT_MIN ≤ n ≤ INT_MAX)%Z → int_value n = Ok n.
Proof.
  intros [Hlo Hhi]. unfold int_value.
  apply Z.leb_le in Hlo as ->. by apply Z.leb_le in Hhi as ->.
Qed.

Lemma drawEpipolarLines_body_Ok rows cols num_lines l calls :
  (INT_MIN < cols ≤ INT_MAX)%Z →
  (INT_MIN ≤ (Z.of_nat l + 1) * (rows ÷ (num_lines + 1)) ≤ INT_MAX)%Z →
  (Z.of_nat l < INT_MAX)%Z →
  drawEpipolarLines_body cols (rows ÷ (num_lines + 1)) l calls
  = Ok (calls ++ [epipolar_line rows cols num_lines l]).
Proof.
  intros Hcols Hy Hl. unfold drawEpipolarLines_body.
  rewrite (int_value_Ok (Z.of_nat l + 1))
    by (unfold INT_MIN, INT_MAX in *; lia).
  cbn [mbind result_bind]. rewrite (int_value_Ok _ Hy).
  cbn [mbind result_bind].
  rewrite (int_value_Ok (cols - 1)) by (unfold INT_MIN, INT_MAX in *; lia).
  done.
Qed.

Lemma drawEpipolarLines_loop rows cols num_lines count : ∀ start calls,
  (INT_MIN < cols ≤ INT_MAX)%Z →
  (∀ k, start ≤ k < start + count →
        (INT_MIN ≤ (Z.of_nat k + 1) * (rows ÷ (num_lines + 1)) ≤ INT_MAX)%Z) →
  (Z.of_nat (start + count) ≤ INT_MAX)%Z →
  for_loop (drawEpipolarLines_body cols (rows ÷ (num_lines + 1))) count start
    calls
  = Ok (calls ++ (epipolar_line rows cols num_lines <$> seq start count)).
Proof.
  induction count as [|count IH]; intros start calls Hcols Hy Hmax;
    cbn [for_loop seq fmap list_fmap].
  - by rewrite app_nil_r.
  - rewrite (drawEpipolarLines_body_Ok rows cols num_lines);
      [|done|apply Hy; lia|lia].
    cbn [mbind result_bind].
    rewrite IH; [|done|intros k Hk; apply Hy; lia|lia].
    by rewrite <- app_assoc.
Qed.

Lemma epipolar_rows_inside rows num_lines k :
  (0 ≤ rows)%Z → (0 ≤ k < num_lines)%Z →
  let line_gap := (rows ÷ (num_lines + 1))%Z in
  (0 ≤ (k + 1) * line_gap ∧ (k + 1) * line_gap ≤ rows - line_gap)%Z.
Proof.
  intros Hrows Hk line_gap. unfold line_gap.
  rewrite Z.quot_div_nonneg by lia.
  pose proof (Z.mul_div_le rows (num_lines + 1) ltac:(lia)).
  pose proof (Z.div_pos rows (num_lines + 1) ltac:(lia) ltac:(lia)).
  nia.
Qed.

(** X20. On a canvas with [rows] rows, asked for [num_lines] >= 0 lines,
    [drawEpipolarLines] draws exactly that many horizontal segments from
    x = 0 to x = cols - 1, the k-th (from 0) at the row (k + 1) * line_gap
    with line_gap = rows / (num_lines + 1), and then writes the image when
    asked to. Every such row is at least 0 and at least one line_gap short
    of [rows]. *)
Theorem drawEpipolarLines_lines rows cols num_lines write id :
  (0 ≤ rows ≤ INT_MAX)%Z →
  (INT_MIN < cols ≤ INT_MAX)%Z →
  (0 ≤ num_lines < INT_MAX)%Z →
  let line_gap := (rows ÷ (num_lines + 1))%Z in
  drawEpipolarLines rows cols num_lines write id
  = Ok ((epipolar_line rows cols num_lines <$> seq 0 (Z.to_nat num_lines))
        ++ (if write then [cv_imwrite (drawEpipolarLines_img_name id)]
            else [])) ∧
  ∀ k, (0 ≤ k < num_lines)%Z →
       (0 ≤ (k + 1) * line_gap ∧ (k + 1) * line_gap ≤ rows - line_gap)%Z.
Proof.
  intros Hrows Hcols Hn line_gap. split; [|intros k Hk;
    by apply epipolar_rows_inside; lia].
  unfold drawEpipolarLines.
  rewrite int_value_Ok by (unfold INT_MIN, INT_MAX in *; lia).
  cbn [mbind result_bind].
  pose proof (epipolar_rows_inside rows num_lines 0) as Hgap.
  unfold int_div. destruct (Z.eqb_spec (num_lines + 1) 0); [lia|].
  assert (0 ≤ rows ÷ (num_lines + 1) ≤ rows)%Z as Hq.
  { rewrite Z.quot_div_nonneg by lia. split; [apply Z.div_pos; lia|].
    apply Z.div_le_upper_bound; nia. }
  rewrite int_value_Ok by (unfold INT_MIN, INT_MAX in *; lia).
  cbn [mbind result_bind].
  rewrite (drawEpipolarLines_loop rows cols num_lines);
    [| done | | unfold INT_MAX in *; lia].
  - cbn [mbind result_bind app]. destruct write; [done|].
    by rewrite app_nil_r.
  - intros k Hk.
    pose proof (epipolar_rows_inside rows num_lines (Z.of_nat k)
                  ltac:(lia) ltac:(lia)) as Hin.
    cbn zeta in Hin. unfold INT_MIN, INT_MAX in *. lia.
Qed.

Lemma drawEpipolarLines_lines_witness :
  drawEpipolarLines 480 1280 3 false 7
  = Ok [cv_line (Examples.px 0 120) (Examples.px 1279 120);
        cv_line (Examples.px 0 240) (Examples.px 1279 240);
        cv_line (Examples.px 0 360) (Examples.px 1279 360)].
Proof.
  refine (proj1 (drawEpipolarLines_lines 480 1280 3 false 7 _ _ _));
    unfold INT_MIN, INT_MAX; lia.
Defined.

(** X21. Asked for -1 lines the function divides by zero, and asked for
    INT_MAX lines it overflows [num_lines + 1]: in both cases its behaviour
    is undefined, whatever the canvas. *)
Theorem drawEpipolarLines_undefined rows cols write id :
  drawEpipolarLines rows cols (-1) write id = Undefined ∧
  drawEpipolarLines rows cols INT_MAX write id = Undefined.
Proof. split; reflexivity. Qed.

Lemma string_app_length s t :
  String.length (s +:+ t) = String.length s + String.length t.
Proof. induction s as [|a s IH]; simpl; [done | by f_equal]. Qed.

Lemma string_app_inj_r t : ∀ s s', s +:+ t = s' +:+ t → s = s'.
Proof.
  induction s as [|a s IH]; intros [|a' s'] Heq; try done.
  - apply (f_equal String.length) in Heq.
    rewrite !string_app_length in Heq. simpl in Heq. lia.
  - apply (f_equal String.length) in Heq.
    rewrite !string_app_length in Heq. simpl in Heq. lia.
  - simpl in Heq. injection Heq as -> Heq. f_equal. by apply IH.
Qed.

(** X22. Frames with different ids write their epipolar lines to different
    files. *)
Theorem drawEpipolarLines_img_name_inj id id' :
  drawEpipolarLines_img_name id = drawEpipolarLines_img_name id' → id = id'.
Proof.
  unfold drawEpipolarLines_img_name. intros Heq.
  apply (inj (String.app _)) in Heq.
  apply string_app_inj_r in Heq. by apply (inj pretty).
Qed.

Lemma drawEpipolarLines_img_name_inj_witness : (7 = 7)%Z.
Proof. apply (drawEpipolarLines_img_name_inj 7 7). reflexivity. Defined.
